(** * A shallow embedding of the Shelly WebSocket device transport

    The development follows the two source files of the repository:

    - [base-transport.ts]: the abstract class [DeviceTransportBase], with
      its [begin]/[end] lifecycle around the two abstract hooks
      [_onBegin]/[_onEnd];
    - [ws-transport.ts]: the class [DeviceWsInTransport], its reconnect
      loop, the digest helper [prepareAuthPartialFrame] and the
      authenticated [rpcRequest].

    Modelling conventions.

    - JavaScript numbers that the code only counts with or copies (retry
      counters, close codes, nonce counts, timer delays, [Date.now()]) are
      integers in [Z]; this is exact for the safe-integer range the code
      works in.
    - A promise is a cell of a promise heap; a handle is its index.  Two
      handles are the same promise exactly when they are equal.
    - [async] functions are run to completion in one step: no other event is
      interleaved at an [await].
    - The hash function is a total function on strings: what it returns, or
      what the promise it returns resolves to.  A hash function that throws
      is not modelled.
    - [new WebSocket(url)] succeeds: the host is a well-formed [ws://] or
      [wss://] address, as its type asks.
    - Everything imported from the package [@taulfsime/shelly-rpc-ts] is
      external to the repository and enters through the class
      [RpcRuntime]. *)

From Stdlib Require Import ZArith Ascii String List Bool Lia DecimalString.
From Stdlib Require Import DecimalPos DecimalZ.
From stdpp Require Import base option list strings.
Import ListNotations.

Local Open Scope string_scope.
Local Open Scope Z_scope.

(** ** The external RPC runtime *)

(** What the transport consumes from [@taulfsime/shelly-rpc-ts]: the types
    of methods, parameters, results and thrown values, the two classifiers
    [isRpcError] and [isRpcAuthResponse], the fields read from a classified
    value, and [JSON.parse] ([None] when it throws a [SyntaxError]). *)
Class RpcRuntime := {
  rpc_method : Type;
  rpc_params : Type;
  rpc_result : Type;
  rpc_options : Type;          (* [shelly_transport_rpc_options_t] without [auth] *)
  rpc_thrown : Type;           (* whatever [super.rpcRequest] rejects with *)
  json : Type;                 (* what [JSON.parse] returns *)
  nonce_t : Type;              (* [shelly_rpc_auth_response_t['nonce']] *)
  realm_t : Type;              (* [shelly_rpc_auth_response_t['realm']] *)
  nonce_toString : nonce_t -> string;   (* the conversion [Array.join] applies *)
  empty_options : rpc_options;          (* the object literal [{}] *)
  isRpcError : rpc_thrown -> bool;
  error_code : rpc_thrown -> Z;
  error_message : rpc_thrown -> string;
  JSON_parse : string -> option json;
  isRpcAuthResponse : json -> bool;
  response_nonce : json -> nonce_t;
  response_realm : json -> realm_t;
  response_nc : json -> Z;
}.

(** Decimal rendering of an integer JavaScript number, as done by template
    literals and by [Array.prototype.join]. *)
Definition Z_toString (z : Z) : string := NilZero.string_of_int (Z.to_int z).

(** [parts.join(sep)] on an array of strings. *)
Definition join (sep : string) (parts : list string) : string :=
  String.concat sep parts.

(** A promise handle: the index of the promise in the promise heap. *)
Definition handle := nat.

Section Model.
Context `{RT : RpcRuntime}.

(** Values a promise can be fulfilled with. *)
Inductive js_value :=
| Undefined
| RpcResult (r : rpc_result).

(** Values that are thrown, or that a promise is rejected with. *)
Inductive js_error :=
| Error (message : string)        (* [new Error(message)] *)
| SyntaxError                     (* thrown by [JSON.parse] *)
| Thrown (e : rpc_thrown).        (* rejected by the external runtime *)

Inductive promise_state :=
| Pending
| Resolved (v : js_value)
| Rejected (e : js_error).

(** The result of a method that either throws or returns a value. *)
Definition result (A : Type) : Type := (js_error + A)%type.

(** ** base-transport.ts: [DeviceTransportBase] *)

Section DeviceTransportBase.

(** The fields of the subclass together with whatever else its hooks act
    on. *)
Context {Sub : Type}.

Record DeviceTransportBase := mkBase {
  _isBusy : bool;
  _beginPromise : option handle;
  _host : string;
  sub : Sub;
}.

(** The abstract hooks.  They see [this.host] and the subclass state; the
    two private fields are out of their reach.  A hook may throw. *)
Variable _onBegin : string -> Sub -> result handle * Sub.
Variable _onEnd : string -> Sub -> result handle * Sub.

Definition begin (t : DeviceTransportBase) : result handle * DeviceTransportBase :=
  match _beginPromise t with
  | Some p => (inr p, t)
  | None =>
      if _isBusy t then (inl (Error "Transport already busy"), t)
      else
        let '(r, s) := _onBegin (_host t) (sub t) in
        match r with
        | inl e => (inl e, mkBase true None (_host t) s)
        | inr p => (inr p, mkBase true (Some p) (_host t) s)
        end
  end.

Definition end_ (t : DeviceTransportBase) : result handle * DeviceTransportBase :=
  if negb (_isBusy t) then (inl (Error "Transport is not active"), t)
  else
    let '(r, s) := _onEnd (_host t) (sub t) in
    (r, mkBase false None (_host t) s).

Definition host (t : DeviceTransportBase) : string := _host t.

End DeviceTransportBase.

Arguments DeviceTransportBase : clear implicits.

(** ** ws-transport.ts: data *)

(** [_authFrame]: the challenge on file. *)
Record auth_frame := mkFrame {
  nonce : nonce_t;
  realm : realm_t;
  nc : Z;
}.

(** What [_regenerateAuthFrames] returns: the challenge frame, overlaid with
    the partial frame and the three fixed keys. *)
Record auth_block := mkBlock {
  auth_nonce : nonce_t;
  auth_realm : realm_t;
  auth_nc : Z;
  auth_cnonce : Z;
  auth_response : string;
  auth_username : string;
  auth_algorithm : string;
}.

(** A [WebSocket] object: the URL it was opened with, the promise whose
    [resolve]/[reject] its handlers have captured, and whether [close()] was
    called on it. *)
Record socket := mkSocket {
  sock_url : string;
  sock_owner : handle;
  sock_close_called : bool;
}.

(** A pending [setTimeout]: its delay and the promise captured by the
    [connect] closure it will call. *)
Record timer := mkTimer {
  timer_delay : Z;
  timer_owner : handle;
}.

(** [sha256_func_t], after [await Promise.resolve(...)]. *)
Definition sha256_func_t := string -> string.

(** The private fields of [DeviceWsInTransport], followed by the
    environment its code acts on: the promise heap, the sockets created so
    far and the module-level variable [cnonce]. *)
Record ws_state := mkWs {
  _ws : option nat;
  _forceDisconnect : bool;
  _retries : Z;
  _maxRetries : Z;
  _reconnectTimeout : option timer;
  _isReconnecting : bool;
  _authFrame : option auth_frame;
  _userShaToken : string;
  _sha256Func : option sha256_func_t;
  promises : list promise_state;
  sockets : list socket;
  cnonce : option Z;
}.

Definition WS_RETRY_BASE_DELAY : Z := 500.
Definition RECONNECT_RETRIES_INFINITE : Z := -1.
Definition DEFAULT_RECONNECT_RETRIES : Z := 5.

Definition set_ws v s :=
  mkWs v (_forceDisconnect s) (_retries s) (_maxRetries s) (_reconnectTimeout s)
    (_isReconnecting s) (_authFrame s) (_userShaToken s) (_sha256Func s)
    (promises s) (sockets s) (cnonce s).
Definition set_forceDisconnect v s :=
  mkWs (_ws s) v (_retries s) (_maxRetries s) (_reconnectTimeout s)
    (_isReconnecting s) (_authFrame s) (_userShaToken s) (_sha256Func s)
    (promises s) (sockets s) (cnonce s).
Definition set_retries v s :=
  mkWs (_ws s) (_forceDisconnect s) v (_maxRetries s) (_reconnectTimeout s)
    (_isReconnecting s) (_authFrame s) (_userShaToken s) (_sha256Func s)
    (promises s) (sockets s) (cnonce s).
Definition set_reconnectTimeout v s :=
  mkWs (_ws s) (_forceDisconnect s) (_retries s) (_maxRetries s) v
    (_isReconnecting s) (_authFrame s) (_userShaToken s) (_sha256Func s)
    (promises s) (sockets s) (cnonce s).
Definition set_isReconnecting v s :=
  mkWs (_ws s) (_forceDisconnect s) (_retries s) (_maxRetries s) (_reconnectTimeout s)
    v (_authFrame s) (_userShaToken s) (_sha256Func s)
    (promises s) (sockets s) (cnonce s).
Definition set_authFrame v s :=
  mkWs (_ws s) (_forceDisconnect s) (_retries s) (_maxRetries s) (_reconnectTimeout s)
    (_isReconnecting s) v (_userShaToken s) (_sha256Func s)
    (promises s) (sockets s) (cnonce s).
Definition set_userShaToken v s :=
  mkWs (_ws s) (_forceDisconnect s) (_retries s) (_maxRetries s) (_reconnectTimeout s)
    (_isReconnecting s) (_authFrame s) v (_sha256Func s)
    (promises s) (sockets s) (cnonce s).
Definition set_promises v s :=
  mkWs (_ws s) (_forceDisconnect s) (_retries s) (_maxRetries s) (_reconnectTimeout s)
    (_isReconnecting s) (_authFrame s) (_userShaToken s) (_sha256Func s)
    v (sockets s) (cnonce s).
Definition set_sockets v s :=
  mkWs (_ws s) (_forceDisconnect s) (_retries s) (_maxRetries s) (_reconnectTimeout s)
    (_isReconnecting s) (_authFrame s) (_userShaToken s) (_sha256Func s)
    (promises s) v (cnonce s).
Definition set_cnonce v s :=
  mkWs (_ws s) (_forceDisconnect s) (_retries s) (_maxRetries s) (_reconnectTimeout s)
    (_isReconnecting s) (_authFrame s) (_userShaToken s) (_sha256Func s)
    (promises s) (sockets s) v.

(** ** Promises *)

(** [new Promise(...)], or the promise of an [async] call, in state [st]. *)
Definition new_promise (st : promise_state) (s : ws_state) : handle * ws_state :=
  (length (promises s), set_promises (promises s ++ [st]) s).

(** [resolve]/[reject] of promise [h]: only a pending promise changes. *)
Definition settle_list (h : handle) (st : promise_state) (ps : list promise_state)
    : list promise_state :=
  match ps !! h with
  | Some Pending => <[h := st]> ps
  | _ => ps
  end.

Definition settle (h : handle) (st : promise_state) (s : ws_state) : ws_state :=
  set_promises (settle_list h st (promises s)) s.

(** ** ws-transport.ts: the connection *)

(** [host.replace(/\/$/, '')]: drop one slash at the very end. *)
Fixpoint strip_trailing_slash (h : string) : string :=
  match h with
  | EmptyString => EmptyString
  | String c rest =>
      match rest with
      | EmptyString => if Ascii.eqb c "/"%char then EmptyString else h
      | String _ _ => String c (strip_trailing_slash rest)
      end
  end.

(** The closure [connect] of the [_onBegin] call that created promise [h]. *)
Definition connect (host : string) (h : handle) (s : ws_state) : ws_state :=
  let k := length (sockets s) in
  let s := set_sockets (sockets s ++ [mkSocket (strip_trailing_slash host +:+ "/rpc") h false]) s in
  let s := set_ws (Some k) s in
  let s := set_forceDisconnect false s in
  set_isReconnecting false s.

Definition onopen (h : handle) (s : ws_state) : ws_state :=
  let s := set_retries 0 s in
  let s := set_isReconnecting false s in
  let s := match _reconnectTimeout s with
           | Some _ => set_reconnectTimeout None s      (* clearTimeout *)
           | None => s
           end in
  settle h (Resolved Undefined) s.

Definition exhausted_message (retries code : Z) : string :=
  "WebSocket disconnected after " +:+ Z_toString retries +:+
  " retries (code=" +:+ Z_toString code +:+ ")".

Definition onclose (h : handle) (code : Z) (s : ws_state) : ws_state :=
  if _forceDisconnect s then s
  else if _isReconnecting s then s
  else if (_retries s <? _maxRetries s) || (_maxRetries s =? RECONNECT_RETRIES_INFINITE) then
    let s := set_retries (_retries s + 1) s in
    let s := set_isReconnecting true s in
    let timeout := WS_RETRY_BASE_DELAY * Z.max (_retries s) DEFAULT_RECONNECT_RETRIES in
    set_reconnectTimeout (Some (mkTimer timeout h)) s
  else
    settle h (Rejected (Error (exhausted_message (_retries s) code))) s.

(** The callback given to [setTimeout], when the timer fires. *)
Definition reconnect_timer_fired (host : string) (s : ws_state) : ws_state :=
  match _reconnectTimeout s with
  | Some t => connect host (timer_owner t) (set_reconnectTimeout None s)
  | None => s
  end.

Definition _onBegin (host : string) (s : ws_state) : result handle * ws_state :=
  let '(h, s) := new_promise Pending s in
  (inr h, connect host h s).

Definition _onEnd (host : string) (s : ws_state) : result handle * ws_state :=
  let s := set_forceDisconnect true s in
  let s := set_isReconnecting false s in
  let s := match _reconnectTimeout s with
           | Some _ => set_reconnectTimeout None s
           | None => s
           end in
  let s := match _ws s with
           | Some k =>
               match sockets s !! k with
               | Some sk => set_sockets (<[k := mkSocket (sock_url sk) (sock_owner sk) true]> (sockets s)) s
               | None => s
               end
           | None => s
           end in
  let s := set_ws None s in
  let s := set_retries 0 s in
  let '(h, s) := new_promise (Resolved Undefined) s in
  (inr h, s).

(** ** ws-transport.ts: authentication *)

(** The module-level [cnonce] is falsy when it is [null] or [0]. *)
Definition cnonce_or_now (c : option Z) (now : Z) : Z :=
  match c with
  | Some v => if v =? 0 then now else v
  | None => now
  end.

(** [prepareAuthPartialFrame]; [now] is what [Date.now()] returns.  The
    result is the pair [{cnonce, response}] and the new module-level
    [cnonce]. *)
Definition prepareAuthPartialFrame (sha256 : sha256_func_t) (shaUserToken : string)
    (nonce : nonce_t) (nc : Z) (now : Z) (c : option Z) : (Z * string) * option Z :=
  let cn := cnonce_or_now c now in
  let parts :=
    [shaUserToken; nonce_toString nonce; Z_toString nc; Z_toString cn; "auth";
     sha256 "dummy_method:dummy_uri"] in
  let response := sha256 (join ":" parts) in
  ((cn, response), Some cn).

Definition _regenerateAuthFrames (nc : Z) (now : Z) (s : ws_state)
    : result auth_block * ws_state :=
  match _sha256Func s with
  | None => (inl (Error "No SHA-256 function provided"), s)
  | Some sha256 =>
      match _authFrame s with
      | None => (inl (Error "No challenge frame available"), s)
      | Some f =>
          let '((cn, response), c) :=
            prepareAuthPartialFrame sha256 (_userShaToken s) (nonce f) nc now (cnonce s) in
          (inr (mkBlock (nonce f) (realm f) nc cn response "admin" "SHA-256"),
           set_cnonce c s)
      end
  end.

(** [authenticate] is [async]: it returns a promise, rejected where the
    source returns [Promise.reject(...)]. *)
Definition authenticate (id password : string) (s : ws_state) : handle * ws_state :=
  match _sha256Func s with
  | None => new_promise (Rejected (Error "No SHA-256 function provided")) s
  | Some sha256 =>
      match _authFrame s with
      | None => new_promise (Rejected (Error "No challenge frame available")) s
      | Some _ =>
          new_promise (Resolved Undefined)
            (set_userShaToken (sha256 (join ":" ["admin"; id; password])) s)
      end
  end.

(** The [options] object handed to [super.rpcRequest]. *)
Record call_options := mkOptions {
  auth : option auth_block;
  other : rpc_options;
}.

(** How the external [super.rpcRequest] settles: with a result, with a
    rejection, or not at all. *)
Inductive runtime_reply :=
| ReplyOk (r : rpc_result)
| ReplyErr (e : rpc_thrown)
| ReplyNever.

Definition super_rpcRequest_t : Type :=
  rpc_method -> rpc_params -> call_options -> runtime_reply.

(** The first half of [rpcRequest], up to the [try]: default the options
    and, with a challenge on file, take the nonce count, increment the stored
    one and attach the regenerated block. *)
Definition attach_auth (options : option rpc_options) (now : Z) (s : ws_state)
    : result call_options * ws_state :=
  let options := mkOptions None (default empty_options options) in
  match _authFrame s with
  | Some f =>
      let nc0 := nc f in
      let s := set_authFrame (Some (mkFrame (nonce f) (realm f) (nc f + 1))) s in
      match _regenerateAuthFrames nc0 now s with
      | (inl e, s) => (inl e, s)
      | (inr b, s) => (inr (mkOptions (Some b) (other options)), s)
      end
  | None => (inr options, s)
  end.

(** The [catch] clause of [rpcRequest]: the state of the promise the call
    returns, and the new transport state. *)
Definition rpc_catch (error : rpc_thrown) (s : ws_state) : promise_state * ws_state :=
  if isRpcError error then
    if error_code error =? 401 then
      match JSON_parse (error_message error) with
      | None => (Rejected SyntaxError, s)
      | Some response =>
          let s :=
            if isRpcAuthResponse response then
              set_authFrame
                (Some (mkFrame (response_nonce response) (response_realm response)
                               (response_nc response))) s
            else s in
          (Pending, s)                        (* [new Promise(() => {})] *)
      end
    else (Rejected (Thrown error), s)
  else (Rejected (Thrown error), s).

Definition rpcRequest (super_rpcRequest : super_rpcRequest_t)
    (method : rpc_method) (params : rpc_params) (options : option rpc_options)
    (now : Z) (s : ws_state) : handle * ws_state :=
  match attach_auth options now s with
  | (inl e, s) => new_promise (Rejected e) s
  | (inr options, s) =>
      match super_rpcRequest method params options with
      | ReplyOk r => new_promise (Resolved (RpcResult r)) s
      | ReplyNever => new_promise Pending s
      | ReplyErr error =>
          let '(st, s) := rpc_catch error s in
          new_promise st s
      end
  end.

(** ** ws-transport.ts: the constructor *)

(** [x || d] on a possibly missing number: [undefined] and [0] are falsy. *)
Definition number_or (x : option Z) (d : Z) : Z :=
  match x with
  | Some v => if v =? 0 then d else v
  | None => d
  end.

Record ws_options := mkWsOptions {
  maxRetries : option Z;
}.

Definition transport : Type := DeviceTransportBase ws_state.

(** [new DeviceWsInTransport(clientId, host, sha256Func, options)] in an
    environment with promise heap [ps] and module variable [c]; the new
    transport has created no socket yet.  [clientId] only goes to the
    external base class. *)
Definition new_DeviceWsInTransport (clientId host : string)
    (sha256Func : option sha256_func_t) (options : option ws_options)
    (ps : list promise_state) (c : option Z) : transport :=
  mkBase false None host
    (mkWs None false 0
       (number_or (options ≫= maxRetries) DEFAULT_RECONNECT_RETRIES)
       None false None "" sha256Func ps [] c).

(** ** The transport as a transition system *)

Definition ws_begin : transport -> result handle * transport :=
  begin _onBegin.
Definition ws_end : transport -> result handle * transport :=
  end_ _onEnd.

(** What can happen to a transport: a call of its API, an event on one of
    the sockets it created, or its reconnect timer firing. *)
Inductive event :=
| CallBegin
| CallEnd
| SocketOpen (k : nat)
| SocketError (k : nat)
| SocketMessage (k : nat) (data : string)
| SocketClose (k : nat) (code : Z)
| TimerFired
| CallAuthenticate (id password : string)
| CallRpcRequest (super_rpcRequest : super_rpcRequest_t)
    (method : rpc_method) (params : rpc_params) (options : option rpc_options) (now : Z).

Definition on_sub (f : ws_state -> ws_state) (t : transport) : transport :=
  mkBase (_isBusy t) (_beginPromise t) (_host t) (f (sub t)).

(** An event on socket [k] runs the handler installed by [connect], with
    the promise that socket's closures captured. *)
Definition on_socket (k : nat) (f : handle -> ws_state -> ws_state) (t : transport)
    : transport :=
  match sockets (sub t) !! k with
  | Some sk => on_sub (f (sock_owner sk)) t
  | None => t
  end.

Definition step (t : transport) (ev : event) : transport :=
  match ev with
  | CallBegin => snd (ws_begin t)
  | CallEnd => snd (ws_end t)
  | SocketOpen k => on_socket k onopen t
  | SocketError k => t                         (* [console.debug] only *)
  | SocketMessage k data => t                  (* forwarded to the external [receive] *)
  | SocketClose k code => on_socket k (fun h => onclose h code) t
  | TimerFired => on_sub (reconnect_timer_fired (_host t)) t
  | CallAuthenticate id password => on_sub (fun s => snd (authenticate id password s)) t
  | CallRpcRequest super m p o now => on_sub (fun s => snd (rpcRequest super m p o now s)) t
  end.

Definition run (t : transport) (evs : list event) : transport :=
  fold_left step evs t.

Definition is_CallEnd (ev : event) : bool :=
  match ev with
  | CallEnd => true
  | _ => false
  end.

(** The state of promise [h]. *)
Definition promise_of (t : transport) (h : handle) : option promise_state :=
  promises (sub t) !! h.

(** ** Observers used in the statements *)

(** [n] calls of [begin()] in a row: what each caller got, and the final
    state. *)
Fixpoint begin_n {Sub : Type} (hook : string -> Sub -> result handle * Sub)
    (n : nat) (t : DeviceTransportBase Sub)
    : list (result handle) * DeviceTransportBase Sub :=
  match n with
  | O => ([], t)
  | S n =>
      let '(r, t) := begin hook t in
      let '(rs, t) := begin_n hook n t in
      (r :: rs, t)
  end.

(** A hook wrapped in a spy that counts its invocations, the way a test
    double would. *)
Definition spy {Sub : Type} (hook : string -> Sub -> result handle * Sub)
    : string -> Sub * nat -> result handle * (Sub * nat) :=
  fun host sn =>
    let '(r, s) := hook host (fst sn) in
    (r, (s, S (snd sn))).

(** Promise [h] is captured: a socket handler or the pending timer holds
    its [resolve]/[reject]. *)
Definition captured (s : ws_state) (h : handle) : Prop :=
  (∃ sk, sk ∈ sockets s ∧ sock_owner sk = h) ∨
  (∃ tm, _reconnectTimeout s = Some tm ∧ timer_owner tm = h).

(** How one transition can change the promise heap: not at all, by
    settling a promise among [ok], or by creating a promise. *)
Inductive evolves (ok : handle -> Prop) (ps : list promise_state)
    : list promise_state -> Prop :=
| evolves_same : evolves ok ps ps
| evolves_settle o st : ok o -> evolves ok ps (settle_list o st ps)
| evolves_alloc st : evolves ok ps (ps ++ [st]).

(** Closures only capture promises that exist: every captured handle is an
    index of the promise heap. *)
Definition owners_exist (s : ws_state) : Prop :=
  ∀ o, captured s o → (o < length (promises s))%nat.

Definition owners_existb (s : ws_state) : bool :=
  forallb (fun sk => (sock_owner sk <? length (promises s))%nat) (sockets s) &&
  match _reconnectTimeout s with
  | Some tm => (timer_owner tm <? length (promises s))%nat
  | None => true
  end.


(** The nonce count on file. *)
Definition stored_nc (s : ws_state) : option Z := nc <$> _authFrame s.

(** A call has returned when its promise is resolved or rejected. *)
Definition returned (st : promise_state) : bool :=
  match st with
  | Pending => false
  | _ => true
  end.

(** ** ws-transport.ts: sending *)

Section Send.

(** [shelly_rpc_msg_request_t] and [JSON.stringify] on it. *)
Variable request : Type.
Variable JSON_stringify : request -> string.


End Send.

(** ** More observers *)

Definition is_CallBegin (ev : event) : bool :=
  match ev with
  | CallBegin => true
  | _ => false
  end.

Definition is_CallRpcRequest (ev : event) : bool :=
  match ev with
  | CallRpcRequest _ _ _ _ _ => true
  | _ => false
  end.

(** The thrown value is a 401 whose message decodes into a valid
    challenge: the one case in which [rpcRequest] replaces the frame. *)
Definition is_challenge (e : rpc_thrown) : bool :=
  isRpcError e && (error_code e =? 401) &&
  match JSON_parse (error_message e) with
  | Some response => isRpcAuthResponse response
  | None => false
  end.

(** No call of the run is answered with a new challenge. *)
Definition no_new_challenge (ev : event) : Prop :=
  match ev with
  | CallRpcRequest super m p o now =>
      ∀ opts e, super m p opts = ReplyErr e → is_challenge e = false
  | _ => True
  end.

Definition is_Rejected (st : promise_state) : bool :=
  match st with
  | Rejected _ => true
  | _ => false
  end.

(** The number of [rpcRequest] calls in a run. *)
Definition count_rpcRequest (evs : list event) : nat :=
  length (List.filter is_CallRpcRequest evs).

(** The retry counter and a pending timer's delay stay within the budget. *)
Definition retry_bounds (s : ws_state) : Prop :=
  0 ≤ _retries s ∧
  (_maxRetries s ≠ RECONNECT_RETRIES_INFINITE → _retries s ≤ Z.max 0 (_maxRetries s)) ∧
  (∀ tm, _reconnectTimeout s = Some tm →
     1 ≤ _retries s ∧
     timer_delay tm = WS_RETRY_BASE_DELAY * Z.max (_retries s) DEFAULT_RECONNECT_RETRIES).


End Model.

Arguments DeviceTransportBase : clear implicits.

(** ** A concrete runtime and transport, for examples *)

Section Demo.

(** A small stand-in for the external runtime: a thrown value is a pair of
    a code and a message, and the only message that decodes is the one
    challenge below. *)
Definition demo_runtime : RpcRuntime := {|
  rpc_method := string;
  rpc_params := string;
  rpc_result := string;
  rpc_options := unit;
  rpc_thrown := Z * string;
  json := option (Z * string * Z);
  nonce_t := Z;
  realm_t := string;
  nonce_toString := Z_toString;
  empty_options := tt;
  isRpcError := fun _ => true;
  error_code := fst;
  error_message := snd;
  JSON_parse := fun m =>
    if String.eqb m "nonce=1700000000,realm=shelly,nc=1" then Some (Some (1700000000, "shelly", 1))
    else if String.eqb m "{}" then Some None
    else None;
  isRpcAuthResponse := fun j => match j with Some _ => true | None => false end;
  response_nonce := fun j => match j with Some (n, _, _) => n | None => 0 end;
  response_realm := fun j => match j with Some (_, r, _) => r | None => "" end;
  response_nc := fun j => match j with Some (_, _, c) => c | None => 0 end;
|}.

#[local] Existing Instance demo_runtime.

Definition demo_sha256 : sha256_func_t := fun d => "sha256(" +:+ d +:+ ")".

(** A fresh transport with a hash function and [maxRetries = 3]. *)
Definition demo_transport : transport :=
  new_DeviceWsInTransport "client" "ws://192.168.33.1/" (Some demo_sha256)
    (Some (mkWsOptions (Some 3))) [] None.

(** A fresh transport built without a hash function. *)
Definition demo_transport_nohash : transport :=
  new_DeviceWsInTransport "client" "ws://192.168.33.1" None None [] None.

(** The 401 error that carries the challenge, and the challenge decoded. *)
Definition demo_401 : rpc_thrown := (401, "nonce=1700000000,realm=shelly,nc=1").
Definition demo_challenge : json := Some (1700000000, "shelly", 1).
Definition demo_frame : auth_frame := @mkFrame demo_runtime 1700000000 "shelly" 1.

(** The runtime answering every call with that error. *)
Definition demo_reply_401 : super_rpcRequest_t :=
  fun _ _ _ => ReplyErr demo_401.

Definition demo_reply_ok : super_rpcRequest_t :=
  fun _ _ _ => ReplyOk "{}".

(** The demo transport after [begin()]. *)
Definition demo_started : transport := run demo_transport [CallBegin].

(** After [begin()] and the open event of its socket. *)
Definition demo_opened : transport := run demo_transport [CallBegin; SocketOpen 0].

(** After [begin()] and four sockets closing with code 1006, none of them
    having opened. *)
Definition demo_exhausted : transport :=
  run demo_started
    [SocketClose 0 1006; TimerFired; SocketClose 1 1006; TimerFired;
     SocketClose 2 1006; TimerFired; SocketClose 3 1006].

(** The fresh demo transport, its connect hook under a spy that has
    counted nothing yet. *)
Definition demo_spied : DeviceTransportBase (ws_state * nat) :=
  mkBase false None "ws://192.168.33.1/" (sub demo_transport, 0%nat).

(** The demo transport after [begin()], the socket opening, and one call
    answered with the challenge. *)
Definition demo_challenged : transport :=
  run demo_transport
    [CallBegin; SocketOpen 0; CallRpcRequest demo_reply_401 "Shelly.GetStatus" "{}" None 1234567].

(** A connect hook that throws. *)
Definition demo_failing_hook : string -> ws_state -> result handle * ws_state :=
  fun _ s => (inl (Error "connect failed"), s).

(** The states above, computed. *)
Definition demo_started_state : transport := Eval vm_compute in demo_started.
Definition demo_opened_state : transport := Eval vm_compute in demo_opened.
Definition demo_challenged_state : transport := Eval vm_compute in demo_challenged.

(** The demo transport after its socket opened and was then lost three
    times over, the retries used up. *)
Definition demo_lost : transport :=
  Eval vm_compute in
    run demo_opened
      [SocketClose 0 1006; TimerFired; SocketClose 1 1006; TimerFired;
       SocketClose 2 1006; TimerFired].

(** A started transport with unlimited retries. *)
Definition demo_unlimited : transport :=
  Eval vm_compute in
    run (new_DeviceWsInTransport "client" "ws://192.168.33.1" (Some demo_sha256)
           (Some (mkWsOptions (Some (-1)))) [] None)
      [CallBegin].

(** A 401 whose message is not JSON. *)
Definition demo_401_garbage : rpc_thrown := (401, "<html>Unauthorized</html>").
Definition demo_reply_garbage : super_rpcRequest_t :=
  fun _ _ _ => ReplyErr demo_401_garbage.

(** The transport without hash function, challenged by its first call. *)
Definition demo_nohash_challenged : transport :=
  Eval vm_compute in
    run demo_transport_nohash
      [CallBegin; SocketOpen 0;
       CallRpcRequest demo_reply_401 "Shelly.GetStatus" "{}" None 1234567].

Definition demo_call_ok (now : Z) : event :=
  CallRpcRequest demo_reply_ok "Shelly.GetStatus" "{}" None now.

(** The challenged demo transport after one more call, which fixed the
    client nonce. *)
Definition demo_called : transport :=
  Eval vm_compute in run demo_challenged [demo_call_ok 1234567].

End Demo.

(** * Properties *)

Section Lifecycle.
Context `{RT : RpcRuntime} {Sub : Type}.
Implicit Types (t : DeviceTransportBase Sub) (h : handle).

(** With a start handle on file, [begin()] hands it out and touches
    nothing, whatever the subclass state is. *)
Lemma begin_outstanding hook t h :
  _beginPromise t = Some h → begin hook t = (inr h, t).
Proof. intros Hp. unfold begin. now rewrite Hp. Qed.

Lemma begin_n_outstanding hook t h n :
  _beginPromise t = Some h → begin_n hook n t = (repeat (inr h) n, t).
Proof.
  intros Hp. induction n as [|n IH]; simpl.
  - reflexivity.
  - rewrite (begin_outstanding hook t h Hp), IH. reflexivity.
Qed.

(** The first [begin()] of an idle transport whose hook returns a handle. *)
Lemma begin_idle hook t h s1 :
  _isBusy t = false → _beginPromise t = None →
  hook (_host t) (sub t) = (inr h, s1) →
  begin hook t = (inr h, mkBase true (Some h) (_host t) s1).
Proof. intros Hb Hp Hh. unfold begin. now rewrite Hp, Hb, Hh. Qed.

(** [end()] from an idle transport throws and changes nothing. *)
Lemma end_idle hook t :
  _isBusy t = false →
  end_ hook t = (inl (Error "Transport is not active"), t).
Proof. intros Hb. unfold end_. now rewrite Hb. Qed.

(** [end()] from a busy transport clears both private fields and returns
    what the hook returns. *)
Lemma end_busy hook t :
  _isBusy t = true →
  end_ hook t =
    (fst (hook (_host t) (sub t)),
     mkBase false None (_host t) (snd (hook (_host t) (sub t)))).
Proof.
  intros Hb. unfold end_. rewrite Hb. simpl.
  now destruct (hook (_host t) (sub t)).
Qed.

End Lifecycle.

Section LifecycleClaims.
Context `{RT : RpcRuntime} {Sub : Type}.

(** C1. Starting from an idle transport whose connect hook returns the
    handle [h], any number [S n] of [begin()] calls in a row (no [end()]
    in between) gives every caller the same handle [h], and the connect hook
    is invoked exactly once: the spy's counter goes up by one and the
    subclass state is the one left by that single invocation. *)
Theorem begin_calls_share_one_attempt
    (hook : string -> Sub -> result handle * Sub)
    (t : DeviceTransportBase (Sub * nat)) (h : handle) (s1 : Sub) (n : nat) :
  _isBusy t = false →
  _beginPromise t = None →
  hook (_host t) (fst (sub t)) = (inr h, s1) →
  begin_n (spy hook) (S n) t =
    (repeat (inr h) (S n),
     mkBase true (Some h) (_host t) (s1, S (snd (sub t)))).
Proof.
  intros Hb Hp Hh.
  assert (Hs : spy hook (_host t) (sub t) = (inr h, (s1, S (snd (sub t))))).
  { unfold spy. now rewrite Hh. }
  cbn [begin_n].
  rewrite (begin_idle (spy hook) t h _ Hb Hp Hs).
  rewrite (begin_n_outstanding (spy hook)
             (mkBase true (Some h) (_host t) (s1, S (snd (sub t)))) h n eq_refl).
  reflexivity.
Qed.

(** C2 (amended). [end()] on an idle transport throws the usage error
    "Transport is not active" and changes nothing; on a busy transport it
    leaves the transport idle with no start handle on file and returns what
    the disconnect hook returns; hence a second [end()] right after it, with
    no [begin()] in between, throws the usage error too (and leaves the
    transport idle). *)
Theorem end_idle_throws_busy_goes_idle
    (hook : string -> Sub -> result handle * Sub)
    (t_idle t_busy : DeviceTransportBase Sub) :
  _isBusy t_idle = false →
  _isBusy t_busy = true →
  end_ hook t_idle = (inl (Error "Transport is not active"), t_idle) ∧
  (let r := end_ hook t_busy in
   _isBusy (snd r) = false ∧
   _beginPromise (snd r) = None ∧
   (fst r, sub (snd r)) = hook (_host t_busy) (sub t_busy) ∧
   end_ hook (snd r) = (inl (Error "Transport is not active"), snd r)).
Proof.
  intros Hi Hb. split.
  - now apply end_idle.
  - rewrite (end_busy hook t_busy Hb). cbn.
    repeat split.
    now destruct (hook (_host t_busy) (sub t_busy)).
Qed.

End LifecycleClaims.

Section WsClaims.
Context `{RT : RpcRuntime}.
Implicit Types (s : ws_state) (h : handle).

(** C9. A transport constructed with [options.maxRetries = 0] is configured
    with 5 retries, the default, as it is when the option or the whole
    options object is missing; the sentinel -1 and every other non-zero
    value [m] are kept as given. *)
Theorem maxRetries_zero_becomes_default
    (clientId host : string) (sha : option sha256_func_t)
    (ps : list promise_state) (c : option Z) (m : Z) :
  m ≠ 0 →
  let configured o :=
    _maxRetries (sub (new_DeviceWsInTransport clientId host sha o ps c)) in
  configured (Some (mkWsOptions (Some 0))) = 5 ∧
  configured (Some (mkWsOptions None)) = 5 ∧
  configured None = 5 ∧
  configured (Some (mkWsOptions (Some (-1)))) = RECONNECT_RETRIES_INFINITE ∧
  configured (Some (mkWsOptions (Some m))) = m.
Proof.
  intros Hm. cbn. repeat split.
  destruct (Z.eqb_spec m 0); [contradiction | reflexivity].
Qed.

(** C7. A close that is neither forced nor already being handled, with
    retries left (or unlimited retries), numbers the retry [r = retries + 1]
    and schedules the reconnect after [500 * max(r, 5)]: 2500 for
    [r] from 1 to 5, then 3000, 3500, 4000 for [r] = 6, 7, 8. *)
Theorem reconnect_delay_formula h (code : Z) s :
  _forceDisconnect s = false →
  _isReconnecting s = false →
  _retries s < _maxRetries s ∨ _maxRetries s = RECONNECT_RETRIES_INFINITE →
  let r := _retries s + 1 in
  let s' := onclose h code s in
  _retries s' = r ∧
  _reconnectTimeout s' = Some (mkTimer (500 * Z.max r 5) h) ∧
  (1 ≤ r ≤ 5 → _reconnectTimeout s' = Some (mkTimer 2500 h)) ∧
  (r = 6 → _reconnectTimeout s' = Some (mkTimer 3000 h)) ∧
  (r = 7 → _reconnectTimeout s' = Some (mkTimer 3500 h)) ∧
  (r = 8 → _reconnectTimeout s' = Some (mkTimer 4000 h)).
Proof.
  intros Hf Hr Hlim r s'.
  assert (Hc : (_retries s <? _maxRetries s) || (_maxRetries s =? RECONNECT_RETRIES_INFINITE) = true).
  { apply orb_true_iff. destruct Hlim as [H | H]; [left; lia | right; lia]. }
  assert (Ht : _reconnectTimeout s' = Some (mkTimer (500 * Z.max r 5) h)).
  { subst s' r. unfold onclose. rewrite Hf, Hr, Hc. reflexivity. }
  split; [| split; [exact Ht |]].
  - subst s' r. unfold onclose. rewrite Hf, Hr, Hc. reflexivity.
  - rewrite Ht. repeat split; intros Hx; do 2 f_equal; lia.
Qed.

(** C5 (amended). [_regenerateAuthFrames(nc)] checks the hash function
    first: without one it throws "No SHA-256 function provided", whether or
    not a challenge is on file; with one but no challenge it throws "No
    challenge frame available"; with both it returns the block made of the
    captured nonce and realm, the given [nc], the client nonce, the proof
    [sha256(token:nonce:nc:cnonce:auth:sha256(dummy_method:dummy_uri))],
    the user name "admin" and the algorithm "SHA-256". *)
Theorem regenerate_auth_block (nc0 now : Z) s :
  let r := _regenerateAuthFrames nc0 now s in
  match _sha256Func s, _authFrame s with
  | None, _ => r = (inl (Error "No SHA-256 function provided"), s)
  | Some _, None => r = (inl (Error "No challenge frame available"), s)
  | Some sha256, Some f =>
      let cn := cnonce_or_now (cnonce s) now in
      fst r =
        inr (mkBlock (nonce f) (realm f) nc0 cn
               (sha256
                  (_userShaToken s +:+ ":" +:+ nonce_toString (nonce f) +:+ ":" +:+
                   Z_toString nc0 +:+ ":" +:+ Z_toString cn +:+ ":" +:+ "auth" +:+ ":" +:+
                   sha256 "dummy_method:dummy_uri"))
               "admin" "SHA-256")
  end.
Proof.
  unfold _regenerateAuthFrames.
  destruct (_sha256Func s) as [sha256|]; [| reflexivity].
  destruct (_authFrame s) as [f|]; reflexivity.
Qed.

(** C8 (amended). [authenticate(id, password)] stores
    [sha256("admin" + ":" + id + ":" + password)] as the user token and
    resolves when a hash function is configured and a challenge is on
    file.  It rejects with "No SHA-256 function provided" when no hash
    function is configured, and with "No challenge frame available" when one
    is configured but no challenge has been captured; in both cases the
    token is left as it was. *)
Theorem authenticate_token (id password : string) s :
  let r := authenticate id password s in
  match _sha256Func s, _authFrame s with
  | None, _ =>
      promises (snd r) !! fst r = Some (Rejected (Error "No SHA-256 function provided")) ∧
      _userShaToken (snd r) = _userShaToken s
  | Some _, None =>
      promises (snd r) !! fst r = Some (Rejected (Error "No challenge frame available")) ∧
      _userShaToken (snd r) = _userShaToken s
  | Some sha256, Some _ =>
      promises (snd r) !! fst r = Some (Resolved Undefined) ∧
      _userShaToken (snd r) = sha256 ("admin" +:+ ":" +:+ id +:+ ":" +:+ password)
  end.
Proof.
  unfold authenticate.
  destruct (_sha256Func s) as [sha256|]; [destruct (_authFrame s) as [f|] |];
    cbn; (split; [apply list_lookup_middle; reflexivity | reflexivity]).
Qed.

End WsClaims.

Section Heap.
Context `{RT : RpcRuntime}.
Implicit Types (s : ws_state) (h : handle) (ps : list promise_state) (t : transport).

Lemma settle_list_other h o st ps : o ≠ h → settle_list o st ps !! h = ps !! h.
Proof.
  intros Hne. unfold settle_list.
  destruct (ps !! o) as [[| |]|]; try reflexivity.
  now apply list_lookup_insert_ne.
Qed.

Lemma settle_list_settled h o st st0 ps :
  ps !! h = Some st0 → returned st0 = true → settle_list o st ps !! h = Some st0.
Proof.
  intros Hl Hr. destruct (decide (o = h)) as [-> | Hne].
  - unfold settle_list. rewrite Hl. now destruct st0.
  - now rewrite settle_list_other.
Qed.

Lemma settle_list_length o st ps : length (settle_list o st ps) = length ps.
Proof.
  unfold settle_list. destruct (ps !! o) as [[| |]|]; try reflexivity.
  apply length_insert.
Qed.

Lemma settle_list_pending h st ps :
  ps !! h = Some Pending → settle_list h st ps !! h = Some st.
Proof.
  intros Hl. unfold settle_list. rewrite Hl.
  apply list_lookup_insert_eq. now apply lookup_lt_Some in Hl.
Qed.

Lemma evolves_mono (ok ok' : handle -> Prop) ps ps' :
  (∀ o, ok o → ok' o) → evolves ok ps ps' → evolves ok' ps ps'.
Proof. intros Himp [| o st Ho | st]; constructor; auto. Qed.

(** A settled promise never changes again. *)
Lemma evolves_settled ok ps ps' h st :
  evolves ok ps ps' → ps !! h = Some st → returned st = true → ps' !! h = Some st.
Proof.
  intros [| o st' Ho | st'] Hl Hr.
  - exact Hl.
  - now apply settle_list_settled.
  - now apply lookup_app_l_Some.
Qed.

(** A promise outside [ok] never changes. *)
Lemma evolves_untouched ok ps ps' h st :
  evolves ok ps ps' → ¬ ok h → ps !! h = Some st → ps' !! h = Some st.
Proof.
  intros [| o st' Ho | st'] Hn Hl.
  - exact Hl.
  - rewrite settle_list_other; [exact Hl | intros ->; contradiction].
  - now apply lookup_app_l_Some.
Qed.

Lemma evolves_length ok ps ps' : evolves ok ps ps' → (length ps ≤ length ps')%nat.
Proof.
  intros [| o st Ho | st].
  - lia.
  - rewrite settle_list_length. lia.
  - rewrite length_app. simpl. lia.
Qed.

(** Every transition changes the promise heap in one of the three ways,
    and settles captured promises only. *)
Lemma step_evolves t ev :
  evolves (captured (sub t)) (promises (sub t)) (promises (sub (step t ev))).
Proof.
  destruct t as [busy bp hst s]. destruct ev; cbn [step sub].
  - (* begin *)
    unfold ws_begin, begin. cbn [_beginPromise _isBusy sub _host].
    destruct bp; [constructor |]. destruct busy; [constructor |].
    cbn. apply evolves_alloc.
  - (* end *)
    unfold ws_end, end_. cbn [_isBusy sub _host].
    destruct busy; [| constructor].
    destruct s as [w fd r mr [tm|] ir af tok sha ps sks cn]; cbn;
      destruct w as [k|]; cbn; try destruct (sks !! k); cbn; apply evolves_alloc.
  - (* open *)
    unfold on_socket. cbn [sub].
    destruct (sockets s !! k) as [sk|] eqn:Hk; [| constructor].
    cbn. unfold onopen. 
    destruct (_reconnectTimeout _); cbn;
      (apply evolves_settle; left; exists sk; split; [| reflexivity];
       eapply list_elem_of_lookup_2; exact Hk).
  - constructor.
  - constructor.
  - (* close *)
    unfold on_socket. cbn [sub].
    destruct (sockets s !! k) as [sk|] eqn:Hk; [| constructor].
    cbn. unfold onclose.
    destruct (_forceDisconnect s); [constructor |].
    destruct (_isReconnecting s); [constructor |].
    destruct (_ || _); cbn; [constructor |].
    apply evolves_settle. left. exists sk. split; [| reflexivity].
    eapply list_elem_of_lookup_2; exact Hk.
  - (* timer *)
    cbn. unfold reconnect_timer_fired.
    destruct (_reconnectTimeout s); constructor.
  - (* authenticate *)
    cbn. unfold authenticate.
    destruct (_sha256Func s); [destruct (_authFrame s) |]; cbn; apply evolves_alloc.
  - (* rpcRequest *)
    cbn. unfold rpcRequest, attach_auth, _regenerateAuthFrames.
    destruct (_authFrame s) as [f|]; cbn.
    + destruct (_sha256Func s); cbn; [| apply evolves_alloc].
      destruct (super_rpcRequest _ _ _) as [r | e |]; cbn; try apply evolves_alloc.
      unfold rpc_catch.
      destruct (isRpcError e); [| apply evolves_alloc].
      destruct (_ =? 401); [| apply evolves_alloc].
      destruct (JSON_parse _); [| apply evolves_alloc].
      destruct (isRpcAuthResponse _); apply evolves_alloc.
    + destruct (super_rpcRequest _ _ _) as [r | e |]; cbn; try apply evolves_alloc.
      unfold rpc_catch.
      destruct (isRpcError e); [| apply evolves_alloc].
      destruct (_ =? 401); [| apply evolves_alloc].
      destruct (JSON_parse _); [| apply evolves_alloc].
      destruct (isRpcAuthResponse _); apply evolves_alloc.
Qed.

(** A transition captures nothing new except the promise it has just
    created. *)
Lemma step_captured t ev h :
  captured (sub (step t ev)) h →
  captured (sub t) h ∨
  (h = length (promises (sub t)) ∧ (h < length (promises (sub (step t ev))))%nat).
Proof.
  destruct t as [busy bp hst s].
  destruct s as [w fd r mr rt ir af tok sha ps sks cn].
  destruct ev; cbn [step sub].
  - (* begin *)
    unfold ws_begin, begin. cbn [_beginPromise _isBusy sub _host].
    destruct bp; [auto |]. destruct busy; [auto |].
    cbn. intros [[sk [Hin Ho]] | [tm [Ht Ho]]].
    + apply elem_of_app in Hin as [Hin | Hin].
      * left. left. eauto.
      * apply list_elem_of_singleton in Hin. subst sk. cbn in Ho. subst h.
        right. split; [reflexivity |]. rewrite length_app. cbn. lia.
    + left. right. eauto.
  - (* end *)
    unfold ws_end, end_. cbn [_isBusy sub _host].
    destruct busy; [| auto].
    assert (Hsk : ∀ sks', (sks' = sks ∨ ∃ k sk0, sks !! k = Some sk0 ∧
                     sks' = <[k := mkSocket (sock_url sk0) (sock_owner sk0) true]> sks) →
              ∀ sk, sk ∈ sks' → ∃ sk0, sk0 ∈ sks ∧ sock_owner sk0 = sock_owner sk).
    { intros sks' [-> | (k & sk0 & Hk & ->)] sk Hin; [eauto |].
      apply list_elem_of_lookup_1 in Hin as [i Hi].
      apply list_lookup_insert_Some in Hi as [(-> & <- & _) | (_ & Hi)].
      - exists sk0. split; [eapply list_elem_of_lookup_2; eauto | reflexivity].
      - exists sk. split; [eapply list_elem_of_lookup_2; eauto | reflexivity]. }
    destruct rt as [tm0|]; destruct w as [k|]; cbn;
      try (destruct (sks !! k) as [sk0|] eqn:Hk; cbn);
      (intros [[sk [Hin Ho]] | [tm [Ht Ho]]]; [| discriminate]);
      (eapply Hsk in Hin as (sk1 & Hin1 & Ho1); [left; left; exists sk1; split; [exact Hin1 | congruence] |]);
      eauto 6.
  - (* open *)
    unfold on_socket. cbn [sub sockets].
    destruct (sks !! k) as [sk|] eqn:Hk; [| auto].
    cbn. unfold onopen. cbn.
    destruct rt as [tm0|]; cbn; intros [[sk' [Hin Ho]] | [tm [Ht Ho]]];
      try discriminate; left; left; eauto.
  - auto.
  - auto.
  - (* close *)
    unfold on_socket. cbn [sub sockets].
    destruct (sks !! k) as [sk|] eqn:Hk; [| auto].
    cbn. unfold onclose. cbn.
    destruct fd; [auto |]. destruct ir; [auto |].
    destruct (_ || _); cbn; intros [[sk' [Hin Ho]] | [tm [Ht Ho]]].
    + left. left. eauto.
    + injection Ht as <-. cbn in Ho. left. left. exists sk.
      split; [eapply list_elem_of_lookup_2; eauto | exact Ho].
    + left. left. eauto.
    + left. right. eauto.
  - (* timer *)
    cbn. unfold reconnect_timer_fired. cbn.
    destruct rt as [tm0|]; [| auto].
    cbn. intros [[sk [Hin Ho]] | [tm [Ht Ho]]]; [| discriminate].
    apply elem_of_app in Hin as [Hin | Hin].
    + left. left. eauto.
    + apply list_elem_of_singleton in Hin. subst sk. cbn in Ho.
      left. right. eauto.
  - (* authenticate *)
    cbn. unfold authenticate. cbn.
    destruct sha; [destruct af |]; cbn; auto.
  - (* rpcRequest *)
    cbn. unfold rpcRequest, attach_auth, _regenerateAuthFrames, rpc_catch. cbn.
    destruct af as [f|]; cbn.
    + destruct sha; cbn; [| auto].
      destruct (super_rpcRequest _ _ _) as [r0 | e |]; cbn; auto.
      destruct (isRpcError e); [| auto].
      destruct (_ =? 401); [| auto].
      destruct (JSON_parse _); [| auto].
      destruct (isRpcAuthResponse _); auto.
    + destruct (super_rpcRequest _ _ _) as [r0 | e |]; cbn; auto.
      destruct (isRpcError e); [| auto].
      destruct (_ =? 401); [| auto].
      destruct (JSON_parse _); [| auto].
      destruct (isRpcAuthResponse _); auto.
Qed.

End Heap.

Section Runs.
Context `{RT : RpcRuntime}.
Implicit Types (s : ws_state) (h : handle) (t : transport) (evs : list event).

Lemma run_snoc t evs ev : run t (evs ++ [ev]) = step (run t evs) ev.
Proof. unfold run. now rewrite fold_left_app. Qed.

Lemma owners_existb_spec s : owners_existb s = true → owners_exist s.
Proof.
  unfold owners_existb. intros Hb. apply andb_true_iff in Hb as [Hs Ht].
  rewrite forallb_forall in Hs.
  intros o [[sk [Hin Ho]] | [tm [Htm Ho]]].
  - subst o. apply list_elem_of_In in Hin. apply Hs in Hin.
    now apply Nat.ltb_lt in Hin.
  - rewrite Htm in Ht. subst o. now apply Nat.ltb_lt in Ht.
Qed.

Lemma owners_existb_complete s : owners_exist s → owners_existb s = true.
Proof.
  intros Hok. unfold owners_existb. apply andb_true_iff. split.
  - apply forallb_forall. intros sk Hin. apply Nat.ltb_lt. apply Hok.
    left. exists sk. split; [now apply list_elem_of_In | reflexivity].
  - destruct (_reconnectTimeout s) as [tm|] eqn:Htm; [| reflexivity].
    apply Nat.ltb_lt. apply Hok. right. exists tm. now split.
Qed.

(** [owners_exist] is an invariant of the transition system. *)
Lemma step_owners_exist t ev : owners_exist (sub t) → owners_exist (sub (step t ev)).
Proof.
  intros Hok o Hc.
  destruct (step_captured t ev o Hc) as [Hold | [_ Hnew]]; [| exact Hnew].
  apply Hok in Hold.
  pose proof (evolves_length _ _ _ (step_evolves t ev)). lia.
Qed.

(** A settled promise stays as it is along every run. *)
Lemma run_settled t evs h st :
  promise_of t h = Some st → returned st = true →
  promise_of (run t evs) h = Some st.
Proof.
  intros Hl Hr. induction evs as [|ev evs IH] using rev_ind; [exact Hl |].
  rewrite run_snoc. unfold promise_of in *.
  eapply evolves_settled; [apply step_evolves | exact IH | exact Hr].
Qed.

(** A pending promise that nothing has captured stays pending, and
    uncaptured, along every run. *)
Lemma run_uncaptured t evs h :
  promise_of t h = Some Pending → ¬ captured (sub t) h →
  promise_of (run t evs) h = Some Pending ∧ ¬ captured (sub (run t evs)) h.
Proof.
  intros Hl Hn. induction evs as [|ev evs IH] using rev_ind; [now split |].
  destruct IH as [IHl IHn]. rewrite run_snoc. unfold promise_of in *. split.
  - eapply evolves_untouched; [apply step_evolves | exact IHn | exact IHl].
  - intros Hc. apply step_captured in Hc as [Hold | [Heq _]]; [contradiction |].
    apply lookup_lt_Some in IHl. lia.
Qed.

(** Only [end()] takes the start handle off file. *)
Lemma step_keeps_beginPromise t ev h :
  is_CallEnd ev = false → _beginPromise t = Some h →
  _beginPromise (step t ev) = Some h.
Proof.
  intros He Hp. destruct ev; try discriminate; cbn [step].
  - unfold ws_begin. now rewrite (begin_outstanding _onBegin t h Hp).
  - unfold on_socket. now destruct (sockets (sub t) !! k).
  - exact Hp.
  - exact Hp.
  - unfold on_socket. now destruct (sockets (sub t) !! k).
  - exact Hp.
  - exact Hp.
  - exact Hp.
Qed.

Lemma run_keeps_beginPromise t evs h :
  existsb is_CallEnd evs = false → _beginPromise t = Some h →
  _beginPromise (run t evs) = Some h.
Proof.
  intros He Hp. induction evs as [|ev evs IH] using rev_ind; [exact Hp |].
  rewrite existsb_app in He. apply orb_false_iff in He as [He1 He2].
  cbn in He2. rewrite orb_false_r in He2.
  rewrite run_snoc. apply step_keeps_beginPromise; auto.
Qed.

(** One failed attempt: an unexpected close with retries left, then the
    reconnect timer. *)
Lemma retry_cycle t k sk (c : Z) :
  sockets (sub t) !! k = Some sk →
  _forceDisconnect (sub t) = false →
  _isReconnecting (sub t) = false →
  _retries (sub t) < _maxRetries (sub t) →
  let t' := run t [SocketClose k c; TimerFired] in
  _retries (sub t') = _retries (sub t) + 1 ∧
  _maxRetries (sub t') = _maxRetries (sub t) ∧
  _forceDisconnect (sub t') = false ∧
  _isReconnecting (sub t') = false ∧
  promises (sub t') = promises (sub t) ∧
  sockets (sub t') =
    (sockets (sub t) ++
       [mkSocket (strip_trailing_slash (_host t) +:+ "/rpc") (sock_owner sk) false])%list.
Proof.
  destruct t as [busy bp hst s].
  destruct s as [w fd r mr rt ir af tok sha ps sks cn].
  cbn [sub sockets _forceDisconnect _isReconnecting _retries _maxRetries _host promises].
  intros Hk -> -> Hlt.
  cbn [run fold_left step]. unfold on_socket. cbn [sub sockets]. rewrite Hk.
  unfold on_sub, onclose. cbn.
  assert (Hb : (r <? mr) = true) by lia. rewrite Hb. cbn.
  repeat split.
Qed.

(** The close that finds the retries used up. *)
Lemma close_exhausted t k sk (c : Z) :
  sockets (sub t) !! k = Some sk →
  _forceDisconnect (sub t) = false →
  _isReconnecting (sub t) = false →
  _maxRetries (sub t) ≤ _retries (sub t) →
  _maxRetries (sub t) ≠ RECONNECT_RETRIES_INFINITE →
  promise_of t (sock_owner sk) = Some Pending →
  promise_of (step t (SocketClose k c)) (sock_owner sk) =
    Some (Rejected (Error (exhausted_message (_retries (sub t)) c))).
Proof.
  destruct t as [busy bp hst s].
  destruct s as [w fd r mr rt ir af tok sha ps sks cn].
  unfold promise_of.
  cbn [sub sockets _forceDisconnect _isReconnecting _retries _maxRetries _host promises].
  intros Hk -> -> Hle Hinf Hp.
  cbn [step]. unfold on_socket. cbn [sub sockets]. rewrite Hk.
  unfold on_sub, onclose. cbn.
  assert (Hb : (r <? mr) = false) by lia.
  assert (Hb' : (mr =? RECONNECT_RETRIES_INFINITE) = false) by lia.
  rewrite Hb, Hb'. cbn.
  now apply settle_list_pending.
Qed.


Lemma new_transport_owners_exist clientId hst sha o ps c evs :
  owners_exist (sub (run (new_DeviceWsInTransport clientId hst sha o ps c) evs)).
Proof.
  induction evs as [|ev evs IH] using rev_ind.
  - intros h [[sk [Hin _]] | [tm [Htm _]]]; cbn in *.
    + now apply elem_of_nil in Hin.
    + discriminate.
  - rewrite run_snoc. now apply step_owners_exist.
Qed.


End Runs.

Section ConnectionClaims.
Context `{RT : RpcRuntime}.
Implicit Types (s : ws_state) (h : handle) (t : transport) (evs : list event).

Lemma open_resets_retries t k sk :
  sockets (sub t) !! k = Some sk → _retries (sub (step t (SocketOpen k))) = 0.
Proof.
  intros Hk. cbn [step]. unfold on_socket. rewrite Hk.
  unfold on_sub, onopen. cbn.
  now destruct (_reconnectTimeout (sub t)).
Qed.

(** C6. With [maxRetries = 3] and the retry counter at 0, let the current
    socket and then each of the three sockets opened by the reconnect timer
    close unexpectedly, none of them having opened.  After the third close
    and its reconnect the counter is 3 and the start promise is still
    pending; the fourth close rejects it with the error "WebSocket
    disconnected after 3 retries (code=c4)", [c4] being the code of that last
    close.  And on any transport, the open event of any of its sockets
    sets the retry counter to 0. *)
Theorem fourth_close_exhausts_retries t k sk (c1 c2 c3 c4 : Z) t' k' sk' :
  _maxRetries (sub t) = 3 →
  _retries (sub t) = 0 →
  _forceDisconnect (sub t) = false →
  _isReconnecting (sub t) = false →
  sockets (sub t) !! k = Some sk →
  promise_of t (sock_owner sk) = Some Pending →
  sockets (sub t') !! k' = Some sk' →
  let n := length (sockets (sub t)) in
  let t3 := run t [SocketClose k c1; TimerFired;
                   SocketClose n c2; TimerFired;
                   SocketClose (S n) c3; TimerFired] in
  let t4 := step t3 (SocketClose (S (S n)) c4) in
  _retries (sub t3) = 3 ∧
  promise_of t3 (sock_owner sk) = Some Pending ∧
  promise_of t4 (sock_owner sk) = Some (Rejected (Error (exhausted_message 3 c4))) ∧
  _retries (sub (step t' (SocketOpen k'))) = 0.
Proof.
  intros Hmax Hr Hf Hi Hk Hp Hk' n t3 t4.
  (* first close and reconnect *)
  pose (ta := run t [SocketClose k c1; TimerFired]).
  destruct (retry_cycle t k sk c1 Hk Hf Hi ltac:(lia)) as (Ra & Ma & Fa & Ia & Pa & Sa).
  fold ta in Ra, Ma, Fa, Ia, Pa, Sa.
  assert (Hka : sockets (sub ta) !! n = Some (mkSocket (strip_trailing_slash (_host t) +:+ "/rpc") (sock_owner sk) false)).
  { rewrite Sa. now apply list_lookup_middle. }
  (* second *)
  pose (tb := run ta [SocketClose n c2; TimerFired]).
  destruct (retry_cycle ta n _ c2 Hka Fa Ia ltac:(lia)) as (Rb & Mb & Fb & Ib & Pb & Sb).
  fold tb in Rb, Mb, Fb, Ib, Pb, Sb. cbn [sock_owner] in Sb.
  assert (Hkb : sockets (sub tb) !! S n = Some (mkSocket (strip_trailing_slash (_host ta) +:+ "/rpc") (sock_owner sk) false)).
  { rewrite Sb. apply list_lookup_middle. rewrite Sa, length_app. cbn. subst n. lia. }
  (* third *)
  pose (tc := run tb [SocketClose (S n) c3; TimerFired]).
  destruct (retry_cycle tb (S n) _ c3 Hkb Fb Ib ltac:(lia)) as (Rc & Mc & Fc & Ic & Pc & Sc).
  fold tc in Rc, Mc, Fc, Ic, Pc, Sc. cbn [sock_owner] in Sc.
  assert (Hkc : sockets (sub tc) !! S (S n) = Some (mkSocket (strip_trailing_slash (_host tb) +:+ "/rpc") (sock_owner sk) false)).
  { rewrite Sc. apply list_lookup_middle. rewrite Sb, Sa, !length_app. cbn. subst n. lia. }
  change t3 with tc. subst t4. change t3 with tc.
  assert (Hpc : promise_of tc (sock_owner sk) = Some Pending).
  { unfold promise_of in *. now rewrite Pc, Pb, Pa. }
  assert (Hrc : _retries (sub tc) = 3) by lia.
  repeat split.
  - exact Hrc.
  - exact Hpc.
  - rewrite <- Hrc.
    apply (close_exhausted tc (S (S n)) _ c4 Hkc Fc Ic); [lia | | exact Hpc].
    unfold RECONNECT_RETRIES_INFINITE. lia.
  - now apply (open_resets_retries t' k' sk').
Qed.

End ConnectionClaims.

Section RpcClaims.
Context `{RT : RpcRuntime}.
Implicit Types (s : ws_state) (h : handle) (t : transport) (evs : list event).

(** [attach_auth] leaves the promise heap, the sockets and the timer
    alone. *)
Lemma attach_auth_env (o : option rpc_options) (now : Z) s :
  let s1 := snd (attach_auth o now s) in
  promises s1 = promises s ∧ sockets s1 = sockets s ∧
  _reconnectTimeout s1 = _reconnectTimeout s.
Proof.
  unfold attach_auth, _regenerateAuthFrames.
  destruct (_authFrame s) as [f|]; cbn; [| auto].
  destruct (_sha256Func s); cbn; auto.
Qed.

(** C3. Take a call of [rpcRequest] that gets as far as the external
    runtime, which rejects it with an RPC error of code 401 whose message
    parses into a valid challenge.  Then the three fields of that challenge
    are what is on file afterwards, whatever was there before, and the
    promise returned to the caller is pending and stays pending along every
    later run of the transport: nothing resolves or rejects it. *)
Theorem challenge_stored_call_never_settles
    (super : super_rpcRequest_t) (m : rpc_method) (p : rpc_params)
    (o : option rpc_options) (now : Z) s (opts : call_options) (s1 : ws_state)
    (e : rpc_thrown) (resp : json) :
  owners_existb s = true →
  attach_auth o now s = (inr opts, s1) →
  super m p opts = ReplyErr e →
  isRpcError e = true →
  error_code e = 401 →
  JSON_parse (error_message e) = Some resp →
  isRpcAuthResponse resp = true →
  let r := rpcRequest super m p o now s in
  _authFrame (snd r) =
    Some (mkFrame (response_nonce resp) (response_realm resp) (response_nc resp)) ∧
  promises (snd r) !! fst r = Some Pending ∧
  ∀ busy bp hst evs,
    promise_of (run (mkBase busy bp hst (snd r)) evs) (fst r) = Some Pending.
Proof.
  intros Hok Ha Hs He Hc Hj Hr r.
  pose proof (attach_auth_env o now s) as Henv. rewrite Ha in Henv.
  cbn [snd] in Henv. destruct Henv as (Hps & Hsks & Htm).
  assert (Hrq : r = new_promise Pending
                      (set_authFrame
                         (Some (mkFrame (response_nonce resp) (response_realm resp)
                                        (response_nc resp))) s1)).
  { subst r. unfold rpcRequest. rewrite Ha, Hs. unfold rpc_catch.
    rewrite He, Hc, Hj, Hr. reflexivity. }
  rewrite Hrq. cbn [new_promise fst snd].
  assert (Hl : promises (set_promises (promises s1 ++ [Pending])
                  (set_authFrame (Some (mkFrame (response_nonce resp) (response_realm resp)
                                        (response_nc resp))) s1))
               !! length (promises s1) = Some Pending).
  { cbn. now apply list_lookup_middle. }
  split; [reflexivity |]. split; [exact Hl |].
  intros busy bp hst evs.
  apply run_uncaptured; [exact Hl |].
  cbn [sub]. intros Hcap.
  assert (Hcap' : captured s (length (promises s1))).
  { destruct Hcap as [[sk [Hin Hown]] | [tm [Ht Hown]]]; cbn in Hin || cbn in Ht.
    - left. exists sk. split; [now rewrite <- Hsks | exact Hown].
    - right. exists tm. split; [now rewrite <- Htm | exact Hown]. }
  apply (owners_existb_spec s Hok) in Hcap'. rewrite Hps in Hcap'. lia.
Qed.

(** C4. Take a call of [rpcRequest] made with a challenge on file, whose
    nonce count is [nc f].  The stored count is [nc f + 1] once the options
    are prepared.  With a hash function the options carry an auth block
    whose count is [nc f], and these options are the only ones the call hands
    to the runtime; without a hash function the call fails before anything is
    sent.  And whenever the call returns, resolved or rejected, the stored
    count is still [nc f + 1]. *)
Theorem nonce_count_used_then_incremented
    (super : super_rpcRequest_t) (m : rpc_method) (p : rpc_params)
    (o : option rpc_options) (now : Z) s (f : auth_frame) :
  _authFrame s = Some f →
  let a := attach_auth o now s in
  let r := rpcRequest super m p o now s in
  stored_nc (snd a) = Some (nc f + 1) ∧
  match _sha256Func s with
  | Some _ =>
      ∃ b, fst a = inr (mkOptions (Some b) (default empty_options o)) ∧
           auth_nc b = nc f ∧
           ∀ super' : super_rpcRequest_t,
             super' m p (mkOptions (Some b) (default empty_options o)) =
               super m p (mkOptions (Some b) (default empty_options o)) →
             rpcRequest super' m p o now s = r
  | None => fst a = inl (Error "No SHA-256 function provided")
  end ∧
  ∃ st, promises (snd r) !! fst r = Some st ∧
        (returned st = true → stored_nc (snd r) = Some (nc f + 1)).
Proof.
  intros Hf a r. subst a r.
  unfold rpcRequest, attach_auth, _regenerateAuthFrames. rewrite Hf. cbn.
  destruct (_sha256Func s) as [sha|]; cbn.
  - split; [reflexivity |]. split.
    { eexists. split; [reflexivity |]. split; [reflexivity |].
      intros super' Hsame. now rewrite Hsame. }
    destruct (super _ _ _) as [res | e |]; cbn.
    + eexists. split; [apply list_lookup_middle; reflexivity | reflexivity].
    + unfold rpc_catch.
      destruct (isRpcError e); cbn;
        [| eexists; split; [apply list_lookup_middle; reflexivity | reflexivity]].
      destruct (_ =? 401); cbn;
        [| eexists; split; [apply list_lookup_middle; reflexivity | reflexivity]].
      destruct (JSON_parse _); cbn;
        [| eexists; split; [apply list_lookup_middle; reflexivity | reflexivity]].
      exists Pending. split; [| discriminate].
      destruct (isRpcAuthResponse _); cbn; apply list_lookup_middle; reflexivity.
    + exists Pending. split; [apply list_lookup_middle; reflexivity | discriminate].
  - split; [reflexivity |]. split; [reflexivity |].
    eexists. split; [apply list_lookup_middle; reflexivity | reflexivity].
Qed.

(** C10. Take a transport whose start handle [h] is on file and already
    rejected.  [begin()] returns [h] and changes nothing, so no socket is
    created.  The same holds after any run without [end()]: [h] is still
    what [begin()] returns, still rejected.  After [end()] no handle is on
    file, and the next [begin()] makes a fresh attempt: it creates a socket
    and returns a new pending promise, different from [h]. *)
Theorem rejected_start_handle_kept_until_end t h (e : js_error) evs :
  _isBusy t = true →
  _beginPromise t = Some h →
  promise_of t h = Some (Rejected e) →
  existsb is_CallEnd evs = false →
  ws_begin t = (inr h, t) ∧
  (let t' := run t evs in
   ws_begin t' = (inr h, t') ∧ promise_of t' h = Some (Rejected e)) ∧
  (let t1 := snd (ws_end t) in
   let h' := length (promises (sub t1)) in
   let b := ws_begin t1 in
   _beginPromise t1 = None ∧
   fst b = inr h' ∧ h' ≠ h ∧
   _beginPromise (snd b) = Some h' ∧
   promise_of (snd b) h' = Some Pending ∧
   length (sockets (sub (snd b))) = S (length (sockets (sub t1)))).
Proof.
  intros Hb Hp Hrej Hev. split; [| split].
  - now apply begin_outstanding.
  - cbn zeta. split.
    + apply begin_outstanding. now apply run_keeps_beginPromise.
    + now apply run_settled.
  - intros t1 h' b.
    assert (Hlen : (h < h')%nat).
    { pose proof (evolves_length _ _ _ (step_evolves t CallEnd)) as Hle.
      cbn [step] in Hle. fold t1 in Hle. fold h' in Hle.
      apply lookup_lt_Some in Hrej. lia. }
    assert (Ht1 : _isBusy t1 = false ∧ _beginPromise t1 = None).
    { subst t1. unfold ws_end. rewrite (end_busy _onEnd t Hb). now cbn. }
    destruct Ht1 as [Hb1 Hp1].
    assert (Hbegin : b = (inr h', mkBase true (Some h') (_host t1)
                                    (connect (_host t1) h' (snd (new_promise Pending (sub t1)))))).
    { subst b. unfold ws_begin.
      apply begin_idle; [exact Hb1 | exact Hp1 | reflexivity]. }
    rewrite Hbegin. cbn [fst snd _beginPromise sub].
    repeat split; try lia; try assumption.
    + unfold promise_of. cbn. now apply list_lookup_middle.
    + cbn. rewrite length_app. cbn. lia.
Qed.

End RpcClaims.

(** * Further properties of the code *)

Section MoreLifecycle.
Context `{RT : RpcRuntime} {Sub : Type}.

(** X1. When the connect hook throws on the first [begin()] of an idle
    transport, the exception reaches the caller and the transport is left
    busy with no start handle on file.  From then on every [begin()] throws
    "Transport already busy" without running any hook, until [end()], which
    makes the transport idle again. *)
Theorem begin_hook_throws_leaves_busy
    (hook hook' stop : string -> Sub -> result handle * Sub)
    (t : DeviceTransportBase Sub) (e : js_error) (s1 : Sub) (n : nat) :
  _isBusy t = false →
  _beginPromise t = None →
  hook (_host t) (sub t) = (inl e, s1) →
  let t1 := mkBase true None (_host t) s1 in
  begin hook t = (inl e, t1) ∧
  begin_n hook' n t1 = (repeat (inl (Error "Transport already busy")) n, t1) ∧
  _isBusy (snd (end_ stop t1)) = false.
Proof.
  intros Hb Hp Hh t1. split; [| split].
  - unfold begin. now rewrite Hp, Hb, Hh.
  - induction n as [|n IH]; [reflexivity |].
    cbn [begin_n]. unfold begin at 1. cbn [_beginPromise _isBusy t1].
    now rewrite IH.
  - unfold end_. cbn. now destruct (stop (_host t) s1).
Qed.

End MoreLifecycle.

Section Strings.

Lemma strip_trailing_slash_final (s : string) :
  strip_trailing_slash (s +:+ "/") = s.
Proof.
  induction s as [|c r IH]; [reflexivity |].
  change (String c r +:+ "/") with (String c (r +:+ "/")).
  cbn [strip_trailing_slash]. rewrite IH.
  now destruct r.
Qed.

Lemma strip_trailing_slash_cases (s : string) :
  strip_trailing_slash s = s ∨ s = strip_trailing_slash s +:+ "/".
Proof.
  induction s as [|c r IH]; [now left |].
  destruct r as [|c' r'].
  - cbn. destruct (Ascii.eqb_spec c "/"%char) as [-> | Hne]; [now right | now left].
  - assert (Hs : strip_trailing_slash (String c (String c' r')) =
                 String c (strip_trailing_slash (String c' r'))) by reflexivity.
    rewrite Hs. destruct IH as [IH | IH].
    + left. now rewrite IH.
    + right. change (String c ?x +:+ "/") with (String c (x +:+ "/")).
      now rewrite <- IH.
Qed.

(** X2. [host.replace(/\/$/, '')] removes a slash at the very end of the
    host, and only that one: a host [s/] becomes [s] (so [s//] becomes
    [s/]), and every host either is returned as it is or is the result
    followed by one slash. *)
Theorem strip_trailing_slash_spec (s : string) :
  strip_trailing_slash (s +:+ "/") = s ∧
  (strip_trailing_slash s = s ∨ s = strip_trailing_slash s +:+ "/").
Proof. split; [apply strip_trailing_slash_final | apply strip_trailing_slash_cases]. Qed.

Lemma append_cancel_l (a c d : string) : a +:+ c = a +:+ d → c = d.
Proof.
  induction a as [|x a IH]; [auto |].
  change (String x a +:+ ?y) with (String x (a +:+ y)). intros [= H]. auto.
Qed.

Lemma append_length (a b : string) :
  String.length (a +:+ b) = (String.length a + String.length b)%nat.
Proof.
  induction a as [|x a IH]; [reflexivity |].
  change (String x a +:+ b) with (String x (a +:+ b)). cbn. now rewrite IH.
Qed.

Lemma append_cancel_r (a b c : string) : a +:+ c = b +:+ c → a = b.
Proof.
  intros H.
  assert (Hlen : String.length a = String.length b).
  { apply (f_equal String.length) in H. rewrite !append_length in H. lia. }
  revert b H Hlen. induction a as [|x a IH]; intros [|y b] H Hlen; try discriminate.
  - reflexivity.
  - change (String x a +:+ c = String y (b +:+ c)) in H. injection H as -> H.
    f_equal. apply IH; [exact H | now injection Hlen].
Qed.

(** The decimal rendering tells integers apart. *)
Lemma Z_toString_inj (x y : Z) : Z_toString x = Z_toString y → x = y.
Proof.
  unfold Z_toString. intros H.
  assert (Hn : ∀ z, Z.to_int z ≠ Decimal.Pos Decimal.Nil ∧ Z.to_int z ≠ Decimal.Neg Decimal.Nil).
  { intros [|q|q]; cbn; split; try discriminate; intros [= Hq];
      now apply Unsigned.to_uint_nonnil in Hq. }
  apply (f_equal NilZero.int_of_string) in H.
  rewrite !NilZero.isi in H by apply Hn.
  injection H as H. now apply DecimalZ.to_int_inj.
Qed.

End Strings.

Section Proofs.
Context `{RT : RpcRuntime}.

(** X18. The proof separates nonce counts: with a hash function that has
    no collisions, two proofs computed from the same token, nonce and client
    nonce are equal only when their counts are equal, so a count that was
    never used gives a proof that was never sent. *)
Theorem proof_separates_nonce_counts (sha256 : sha256_func_t) (token : string)
    (n : nonce_t) (nc1 nc2 now : Z) (c : option Z) :
  (∀ x y, sha256 x = sha256 y → x = y) →
  snd (fst (prepareAuthPartialFrame sha256 token n nc1 now c)) =
    snd (fst (prepareAuthPartialFrame sha256 token n nc2 now c)) →
  nc1 = nc2.
Proof.
  intros Hinj H. cbn in H. apply Hinj in H. unfold join in H. cbn [String.concat] in H.
  do 4 apply append_cancel_l in H.
  apply append_cancel_r in H. now apply Z_toString_inj.
Qed.

End Proofs.

(** Unfold one transition down to the fields, then split on every test the
    code makes. *)
Ltac unfold_step :=
  cbn [step]; unfold ws_begin, ws_end, begin, end_, on_socket, on_sub, onopen, onclose,
    reconnect_timer_fired, authenticate, rpcRequest, attach_auth, _regenerateAuthFrames,
    rpc_catch, _onBegin, _onEnd; cbn.

Ltac split_step := repeat (case_match; simplify_eq/=).

Section Configuration.
Context `{RT : RpcRuntime}.
Implicit Types (s : ws_state) (h : handle) (t : transport) (evs : list event).

Lemma step_config t ev :
  _host (step t ev) = _host t ∧
  _maxRetries (sub (step t ev)) = _maxRetries (sub t) ∧
  _sha256Func (sub (step t ev)) = _sha256Func (sub t).
Proof.
  destruct t as [busy bp hst s].
  destruct s as [w fd r mr rt ir af tok sha ps sks cn].
  destruct ev; unfold_step; repeat (case_match; simplify_eq/=); auto.
Qed.

Lemma run_config t evs :
  _host (run t evs) = _host t ∧
  _maxRetries (sub (run t evs)) = _maxRetries (sub t) ∧
  _sha256Func (sub (run t evs)) = _sha256Func (sub t).
Proof.
  induction evs as [|ev evs IH] using rev_ind; [auto |].
  rewrite run_snoc. destruct (step_config (run t evs) ev) as (H1 & H2 & H3).
  destruct IH as (I1 & I2 & I3). repeat split; congruence.
Qed.

(** X3. What the constructor configures never changes: after any run of
    calls, socket events and timers, [host] is the address given at
    construction, the retry maximum is the one derived from the options
    and the hash function is the one given. *)
Theorem configuration_is_immutable (clientId hst : string)
    (sha : option sha256_func_t) (o : option ws_options)
    (ps : list promise_state) (c : option Z) evs :
  let t := run (new_DeviceWsInTransport clientId hst sha o ps c) evs in
  host t = hst ∧
  _maxRetries (sub t) = number_or (o ≫= maxRetries) DEFAULT_RECONNECT_RETRIES ∧
  _sha256Func (sub t) = sha.
Proof.
  intros t. subst t. unfold host.
  destruct (run_config (new_DeviceWsInTransport clientId hst sha o ps c) evs)
    as (H1 & H2 & H3).
  now rewrite H1, H2, H3.
Qed.

End Configuration.

Section Sockets.
Context `{RT : RpcRuntime}.
Implicit Types (s : ws_state) (h : handle) (t : transport) (evs : list event).

Lemma step_socket_urls t ev :
  Forall (fun sk => sock_url sk = strip_trailing_slash (_host t) +:+ "/rpc") (sockets (sub t)) →
  Forall (fun sk => sock_url sk = strip_trailing_slash (_host t) +:+ "/rpc")
    (sockets (sub (step t ev))).
Proof.
  destruct t as [busy bp hst s].
  destruct s as [w fd r mr rt ir af tok sha ps sks cn].
  cbn [sub sockets _host]. intros Hall.
  destruct ev; unfold_step; split_step; try assumption.
  all: first
    [ apply Forall_app_2; [assumption | now repeat constructor]
    | apply Forall_insert; [assumption |]; cbn;
      eapply (Forall_lookup_1 _ _ _ _ Hall); eassumption ].
Qed.

(** X4. Every socket a transport ever opens, at [begin()] or at a
    reconnect, is opened at the host given at construction, without its
    final slash, followed by [/rpc]. *)
Theorem every_socket_opens_host_rpc (clientId hst : string)
    (sha : option sha256_func_t) (o : option ws_options)
    (ps : list promise_state) (c : option Z) evs :
  Forall (fun sk => sock_url sk = strip_trailing_slash hst +:+ "/rpc")
    (sockets (sub (run (new_DeviceWsInTransport clientId hst sha o ps c) evs))).
Proof.
  induction evs as [|ev evs IH] using rev_ind; [constructor |].
  rewrite run_snoc.
  pose proof (step_socket_urls (run (new_DeviceWsInTransport clientId hst sha o ps c) evs) ev)
    as Hstep.
  destruct (run_config (new_DeviceWsInTransport clientId hst sha o ps c) evs) as (Hh & _).
  rewrite Hh in Hstep. now apply Hstep.
Qed.

Lemma step_retry_bounds t ev : retry_bounds (sub t) → retry_bounds (sub (step t ev)).
Proof.
  destruct t as [busy bp hst s].
  destruct s as [w fd r mr rt ir af tok sha ps sks cn].
  unfold retry_bounds, RECONNECT_RETRIES_INFINITE, WS_RETRY_BASE_DELAY,
    DEFAULT_RECONNECT_RETRIES.
  cbn [sub _retries _maxRetries _reconnectTimeout]. intros (H0 & Hmax & Htm).
  destruct ev; unfold_step; split_step;
    unfold RECONNECT_RETRIES_INFINITE, WS_RETRY_BASE_DELAY, DEFAULT_RECONNECT_RETRIES in *;
    (split; [lia |]; split; [try lia |]);
    try (intros tm' Htm'; simplify_eq/=; try (apply Htm; reflexivity); try lia);
    try (intros; lia); auto.
  all: try (split; [lia | reflexivity]).
Qed.

(** X5. On every transport reached from its construction the retry
    counter is never negative and, unless retries are unlimited, never
    exceeds the configured maximum; and a pending reconnect timer always
    waits [500 * max(retries, 5)], which is at least 2500. *)
Theorem retry_counter_within_budget (clientId hst : string)
    (sha : option sha256_func_t) (o : option ws_options)
    (ps : list promise_state) (c : option Z) evs :
  let s := sub (run (new_DeviceWsInTransport clientId hst sha o ps c) evs) in
  0 ≤ _retries s ∧
  (_maxRetries s ≠ RECONNECT_RETRIES_INFINITE → _retries s ≤ Z.max 0 (_maxRetries s)) ∧
  (∀ tm, _reconnectTimeout s = Some tm →
     timer_delay tm = 500 * Z.max (_retries s) 5 ∧ 2500 ≤ timer_delay tm).
Proof.
  intros s.
  assert (Hb : retry_bounds s).
  { subst s. induction evs as [|ev evs IH] using rev_ind.
    - unfold retry_bounds. cbn. repeat split; try lia; discriminate.
    - rewrite run_snoc. now apply step_retry_bounds. }
  destruct Hb as (H0 & Hmax & Htm). split; [exact H0 |]. split; [exact Hmax |].
  intros tm Ht. destruct (Htm tm Ht) as [H1 Hd].
  unfold WS_RETRY_BASE_DELAY, DEFAULT_RECONNECT_RETRIES in Hd. split; [exact Hd | lia].
Qed.




End Sockets.

Section Reconnecting.
Context `{RT : RpcRuntime}.
Implicit Types (s : ws_state) (h : handle) (t : transport) (evs : list event).

(** An ended transport: idle, marked as disconnected on purpose, with no
    current socket and no timer. *)
Lemma step_stopped t ev :
  is_CallBegin ev = false →
  _isBusy t = false ∧ _forceDisconnect (sub t) = true ∧
  _reconnectTimeout (sub t) = None ∧ _ws (sub t) = None →
  (_isBusy (step t ev) = false ∧ _forceDisconnect (sub (step t ev)) = true ∧
   _reconnectTimeout (sub (step t ev)) = None ∧ _ws (sub (step t ev)) = None) ∧
  sockets (sub (step t ev)) = sockets (sub t).
Proof.
  destruct t as [busy bp hst s].
  destruct s as [w fd r mr rt ir af tok sha ps sks cn].
  cbn [sub _isBusy _forceDisconnect _reconnectTimeout _ws sockets].
  intros Hev (-> & -> & -> & ->).
  destruct ev; try discriminate; unfold_step; split_step; auto.
Qed.

(** X7. [end()] on a busy transport returns an already resolved promise
    and stops the connection for good: whatever socket events and timer
    firings follow, and whatever other calls are made, no socket is opened,
    no reconnect is scheduled and there is no current socket, until
    [begin()] is called again. *)
Theorem end_stops_reconnecting t evs :
  _isBusy t = true →
  existsb is_CallBegin evs = false →
  let r := ws_end t in
  let t2 := run (snd r) evs in
  (∃ h, fst r = inr h ∧ promise_of (snd r) h = Some (Resolved Undefined)) ∧
  sockets (sub t2) = sockets (sub (snd r)) ∧
  _reconnectTimeout (sub t2) = None ∧
  _ws (sub t2) = None ∧
  _isBusy t2 = false.
Proof.
  intros Hb Hev r t2.
  assert (Hend : (∃ h, fst r = inr h ∧ promise_of (snd r) h = Some (Resolved Undefined)) ∧
                 _isBusy (snd r) = false ∧ _forceDisconnect (sub (snd r)) = true ∧
                 _reconnectTimeout (sub (snd r)) = None ∧ _ws (sub (snd r)) = None).
  { subst r. unfold ws_end. rewrite (end_busy _onEnd t Hb). unfold promise_of.
    destruct t as [busy bp hst s].
    destruct s as [w fd r0 mr rt ir af tok sha ps sks cn].
    unfold _onEnd; cbn. split_step;
      (split; [eexists; split; [reflexivity |]; cbn; now apply list_lookup_middle | auto]). }
  destruct Hend as (Hh & Hstop). split; [exact Hh |].
  assert (Hrun : (_isBusy t2 = false ∧ _forceDisconnect (sub t2) = true ∧
                  _reconnectTimeout (sub t2) = None ∧ _ws (sub t2) = None) ∧
                 sockets (sub t2) = sockets (sub (snd r))).
  { subst t2. induction evs as [|ev evs IH] using rev_ind; [now split |].
    rewrite existsb_app in Hev. apply orb_false_iff in Hev as [He1 He2].
    cbn in He2. rewrite orb_false_r in He2.
    destruct (IH He1) as [IHs IHk]. rewrite run_snoc.
    destruct (step_stopped (run (snd r) evs) ev He2 IHs) as [Hs Hk].
    split; [exact Hs | congruence]. }
  destruct Hrun as ((H1 & _ & H3 & H4) & H5). auto.
Qed.

(** X8. A close that arrives while a reconnect is already scheduled is
    ignored: after an unexpected close has counted a retry and set the
    timer, a second close, on whichever socket, changes nothing, so the
    retry is counted once. *)
Theorem close_while_reconnecting_ignored t k sk k2 sk2 (c c2 : Z) :
  sockets (sub t) !! k = Some sk →
  sockets (sub t) !! k2 = Some sk2 →
  _forceDisconnect (sub t) = false →
  _isReconnecting (sub t) = false →
  _retries (sub t) < _maxRetries (sub t) ∨ _maxRetries (sub t) = RECONNECT_RETRIES_INFINITE →
  let t1 := step t (SocketClose k c) in
  _retries (sub t1) = _retries (sub t) + 1 ∧
  step t1 (SocketClose k2 c2) = t1.
Proof.
  destruct t as [busy bp hst s].
  destruct s as [w fd r mr rt ir af tok sha ps sks cn].
  cbn [sub sockets _forceDisconnect _isReconnecting _retries _maxRetries].
  intros Hk Hk2 -> -> Hlim.
  assert (Hc : (r <? mr) || (mr =? RECONNECT_RETRIES_INFINITE) = true).
  { apply orb_true_iff. destruct Hlim as [H | H]; [left; lia | right; lia]. }
  cbn [step]. unfold on_socket. cbn [sub sockets]. rewrite Hk.
  unfold on_sub, onclose. cbn. rewrite Hc. cbn. rewrite Hk2. cbn.
  split; reflexivity.
Qed.

(** X9. Once the promise a socket's handlers hold is settled, running out
    of retries tells no one: the close that finds the budget used up leaves
    the whole transport exactly as it was.  In particular a connection lost
    for good after [begin()] has resolved is not reported. *)
Theorem exhaustion_after_settled_is_silent t k sk (c : Z) (st : promise_state) :
  sockets (sub t) !! k = Some sk →
  promise_of t (sock_owner sk) = Some st →
  returned st = true →
  _forceDisconnect (sub t) = false →
  _isReconnecting (sub t) = false →
  _maxRetries (sub t) ≤ _retries (sub t) →
  _maxRetries (sub t) ≠ RECONNECT_RETRIES_INFINITE →
  step t (SocketClose k c) = t.
Proof.
  destruct t as [busy bp hst s].
  destruct s as [w fd r mr rt ir af tok sha ps sks cn].
  unfold promise_of.
  cbn [sub sockets _forceDisconnect _isReconnecting _retries _maxRetries promises].
  intros Hk Hp Hr -> -> Hle Hinf.
  cbn [step]. unfold on_socket. cbn [sub sockets]. rewrite Hk.
  unfold on_sub, onclose. cbn.
  assert (Hb : (r <? mr) = false) by lia.
  assert (Hb' : (mr =? RECONNECT_RETRIES_INFINITE) = false) by lia.
  rewrite Hb, Hb'. cbn. unfold settle, settle_list, set_promises. cbn. rewrite Hp.
  now destruct st.
Qed.

(** X10. The open event of a socket whose promise is pending resolves that
    promise, resets the retry counter and cancels a scheduled reconnect: the
    timer is gone, so its firing afterwards opens no socket and changes
    nothing. *)
Theorem open_resolves_and_cancels_timer t k sk :
  sockets (sub t) !! k = Some sk →
  promise_of t (sock_owner sk) = Some Pending →
  let t1 := step t (SocketOpen k) in
  promise_of t1 (sock_owner sk) = Some (Resolved Undefined) ∧
  _retries (sub t1) = 0 ∧
  _isReconnecting (sub t1) = false ∧
  _reconnectTimeout (sub t1) = None ∧
  step t1 TimerFired = t1.
Proof.
  destruct t as [busy bp hst s].
  destruct s as [w fd r mr rt ir af tok sha ps sks cn].
  unfold promise_of. cbn [sub sockets promises].
  intros Hk Hp.
  cbn [step]. unfold on_socket. cbn [sub sockets]. rewrite Hk.
  unfold on_sub, onopen, reconnect_timer_fired.
  destruct rt as [tm|]; cbn;
    (split; [now apply settle_list_pending | repeat split]).
Qed.

Lemma close_then_timer t k sk (c : Z) :
  sockets (sub t) !! k = Some sk →
  _forceDisconnect (sub t) = false →
  _isReconnecting (sub t) = false →
  _retries (sub t) < _maxRetries (sub t) ∨ _maxRetries (sub t) = RECONNECT_RETRIES_INFINITE →
  let t' := run t [SocketClose k c; TimerFired] in
  promises (sub t') = promises (sub t) ∧
  sockets (sub t') =
    (sockets (sub t) ++
       [mkSocket (strip_trailing_slash (_host t) +:+ "/rpc") (sock_owner sk) false])%list ∧
  _ws (sub t') = Some (length (sockets (sub t))).
Proof.
  destruct t as [busy bp hst s].
  destruct s as [w fd r mr rt ir af tok sha ps sks cn].
  cbn [sub sockets _forceDisconnect _isReconnecting _retries _maxRetries _host promises].
  intros Hk -> -> Hlim.
  assert (Hc : (r <? mr) || (mr =? RECONNECT_RETRIES_INFINITE) = true).
  { apply orb_true_iff. destruct Hlim as [H | H]; [left; lia | right; lia]. }
  cbn [run fold_left step]. unfold on_socket. cbn [sub sockets]. rewrite Hk.
  unfold on_sub, onclose. cbn. rewrite Hc. cbn.
  repeat split.
Qed.

Lemma open_pending t k sk :
  sockets (sub t) !! k = Some sk →
  promise_of t (sock_owner sk) = Some Pending →
  let t' := step t (SocketOpen k) in
  promise_of t' (sock_owner sk) = Some (Resolved Undefined) ∧
  _retries (sub t') = 0 ∧
  _ws (sub t') = _ws (sub t) ∧
  sockets (sub t') = sockets (sub t) ∧
  _reconnectTimeout (sub t') = None.
Proof.
  destruct t as [busy bp hst s].
  destruct s as [w fd r mr rt ir af tok sha ps sks cn].
  unfold promise_of. cbn [sub sockets promises].
  intros Hk Hp.
  cbn [step]. unfold on_socket. cbn [sub sockets]. rewrite Hk.
  unfold on_sub, onopen.
  destruct rt as [tm|]; cbn;
    (split; [now apply settle_list_pending | repeat split]).
Qed.

(** X19. A start that has not connected yet still succeeds when a retry
    does: after an unexpected close with retries left, the reconnect timer
    opens one new socket, which becomes the current one, and its open event
    resolves the promise [begin()] returned and resets the retry counter. *)
Theorem retry_that_connects_resolves_start t k sk (c : Z) :
  sockets (sub t) !! k = Some sk →
  promise_of t (sock_owner sk) = Some Pending →
  _forceDisconnect (sub t) = false →
  _isReconnecting (sub t) = false →
  _retries (sub t) < _maxRetries (sub t) ∨ _maxRetries (sub t) = RECONNECT_RETRIES_INFINITE →
  let n := length (sockets (sub t)) in
  let t2 := run t [SocketClose k c; TimerFired; SocketOpen n] in
  promise_of t2 (sock_owner sk) = Some (Resolved Undefined) ∧
  _retries (sub t2) = 0 ∧
  _ws (sub t2) = Some n ∧
  length (sockets (sub t2)) = S n ∧
  _reconnectTimeout (sub t2) = None.
Proof.
  intros Hk Hp Hf Hi Hlim n t2.
  pose (t1 := run t [SocketClose k c; TimerFired]).
  destruct (close_then_timer t k sk c Hk Hf Hi Hlim) as (Hps & Hsks & Hws).
  fold t1 in Hps, Hsks, Hws.
  assert (Hn : sockets (sub t1) !! n =
               Some (mkSocket (strip_trailing_slash (_host t) +:+ "/rpc") (sock_owner sk) false)).
  { rewrite Hsks. now apply list_lookup_middle. }
  assert (Hp1 : promise_of t1 (sock_owner sk) = Some Pending).
  { unfold promise_of in *. now rewrite Hps. }
  change t2 with (step t1 (SocketOpen n)).
  destruct (open_pending t1 n _ Hn Hp1) as (Hres & Hr & Hw & Hs & Htm).
  cbn [sock_owner] in Hres.
  split; [exact Hres |]. split; [exact Hr |]. split; [now rewrite Hw |].
  split; [| exact Htm]. rewrite Hs, Hsks, length_app. cbn. subst n. lia.
Qed.

End Reconnecting.

Section Unlimited.
Context `{RT : RpcRuntime}.
Implicit Types (s : ws_state) (h : handle) (t : transport) (evs : list event).

Lemma settle_list_resolved_keeps h o (v : js_value) (ps : list promise_state) st :
  ps !! h = Some st → is_Rejected st = false →
  ∃ st', settle_list o (Resolved v) ps !! h = Some st' ∧ is_Rejected st' = false.
Proof.
  intros Hl Hr. destruct (decide (o = h)) as [-> | Hne].
  - unfold settle_list. rewrite Hl. destruct st; try discriminate; eauto.
    exists (Resolved v). split; [| reflexivity].
    apply list_lookup_insert_eq. now apply lookup_lt_Some in Hl.
  - rewrite settle_list_other by exact Hne. eauto.
Qed.

Lemma step_unlimited_no_reject t ev h st :
  _maxRetries (sub t) = RECONNECT_RETRIES_INFINITE →
  promise_of t h = Some st → is_Rejected st = false →
  ∃ st', promise_of (step t ev) h = Some st' ∧ is_Rejected st' = false.
Proof.
  destruct t as [busy bp hst s].
  destruct s as [w fd r mr rt ir af tok sha ps sks cn].
  unfold promise_of. cbn [sub promises _maxRetries]. intros -> Hl Hr.
  destruct ev; unfold_step; unfold settle, set_promises; cbn; split_step;
    try (rewrite orb_true_r in *; discriminate);
    first
      [ now eauto
      | now (exists st; split; [apply lookup_app_l_Some | ]; assumption)
      | eapply settle_list_resolved_keeps; eassumption ].
Qed.

(** X11. With unlimited retries ([maxRetries = -1]) the connection never
    gives up: a promise that is not rejected, the start promise in
    particular, is never rejected, however many closes, timers and other
    events follow. *)
Theorem unlimited_retries_never_reject t h (st : promise_state) evs :
  _maxRetries (sub t) = RECONNECT_RETRIES_INFINITE →
  promise_of t h = Some st →
  is_Rejected st = false →
  ∃ st', promise_of (run t evs) h = Some st' ∧ is_Rejected st' = false.
Proof.
  intros Hm Hl Hr. induction evs as [|ev evs IH] using rev_ind; [eauto |].
  destruct IH as (st1 & Hl1 & Hr1). rewrite run_snoc.
  apply (step_unlimited_no_reject (run t evs) ev h st1); [| exact Hl1 | exact Hr1].
  destruct (run_config t evs) as (_ & Hmax & _). congruence.
Qed.

End Unlimited.

Section MoreRpc.
Context `{RT : RpcRuntime}.
Implicit Types (s : ws_state) (h : handle) (t : transport) (evs : list event).

(** X12. A call that reaches the runtime passes its outcome through: a
    result resolves the call with that very result, and a rejection that is
    not an RPC error of code 401 rejects the call with the very value the
    runtime threw; in both cases the challenge on file is the one the call
    left after taking its nonce count. *)
Theorem rpc_outcome_passes_through
    (super : super_rpcRequest_t) (m : rpc_method) (p : rpc_params)
    (o : option rpc_options) (now : Z) s (opts : call_options) (s1 : ws_state) :
  attach_auth o now s = (inr opts, s1) →
  let r := rpcRequest super m p o now s in
  match super m p opts with
  | ReplyOk res =>
      promises (snd r) !! fst r = Some (Resolved (RpcResult res)) ∧
      _authFrame (snd r) = _authFrame s1
  | ReplyErr e =>
      if isRpcError e && (error_code e =? 401) then True
      else promises (snd r) !! fst r = Some (Rejected (Thrown e)) ∧
           _authFrame (snd r) = _authFrame s1
  | ReplyNever => promises (snd r) !! fst r = Some Pending
  end.
Proof.
  intros Ha r. subst r. unfold rpcRequest. rewrite Ha.
  destruct (super m p opts) as [res | e |]; cbn.
  - split; [now apply list_lookup_middle | reflexivity].
  - unfold rpc_catch. destruct (isRpcError e); cbn.
    + destruct (error_code e =? 401); [exact I |]. cbn.
      split; [now apply list_lookup_middle | reflexivity].
    + split; [now apply list_lookup_middle | reflexivity].
  - now apply list_lookup_middle.
Qed.

(** X13. A 401 that carries no valid challenge changes nothing on file.
    When its message is not JSON, [JSON.parse] throws inside the [catch]
    clause and the call is rejected with that [SyntaxError]; when it is JSON
    but not a challenge, the call is left pending. *)
Theorem malformed_challenge_keeps_frame
    (super : super_rpcRequest_t) (m : rpc_method) (p : rpc_params)
    (o : option rpc_options) (now : Z) s (opts : call_options) (s1 : ws_state)
    (e : rpc_thrown) :
  attach_auth o now s = (inr opts, s1) →
  super m p opts = ReplyErr e →
  isRpcError e = true →
  error_code e = 401 →
  is_challenge e = false →
  let r := rpcRequest super m p o now s in
  _authFrame (snd r) = _authFrame s1 ∧
  promises (snd r) !! fst r =
    Some (match JSON_parse (error_message e) with
          | None => Rejected SyntaxError
          | Some _ => Pending
          end).
Proof.
  intros Ha Hs He Hc Hch r. subst r. unfold rpcRequest. rewrite Ha, Hs.
  unfold is_challenge in Hch. unfold rpc_catch. rewrite He, Hc in *. cbn in *.
  destruct (JSON_parse (error_message e)) as [resp|]; cbn.
  - rewrite Hch. cbn. split; [reflexivity | now apply list_lookup_middle].
  - split; [reflexivity | now apply list_lookup_middle].
Qed.

Lemma step_keeps_challenge t ev :
  is_Some (_authFrame (sub t)) → is_Some (_authFrame (sub (step t ev))).
Proof.
  destruct t as [busy bp hst s].
  destruct s as [w fd r mr rt ir af tok sha ps sks cn].
  cbn [sub _authFrame]. intros [f ->].
  destruct ev; unfold_step; split_step; eauto.
Qed.

Lemma run_keeps_challenge t evs :
  is_Some (_authFrame (sub t)) → is_Some (_authFrame (sub (run t evs))).
Proof.
  intros Hf. induction evs as [|ev evs IH] using rev_ind; [exact Hf |].
  rewrite run_snoc. now apply step_keeps_challenge.
Qed.

(** X14. A challenge, once on file, is never taken off, not even by
    [end()].  So a transport built without a hash function that has been
    challenged can make no call any more: after any run, every [rpcRequest]
    is rejected with "No SHA-256 function provided", whatever the runtime
    would have answered. *)
Theorem challenged_without_hash_rejects_every_call t evs
    (super : super_rpcRequest_t) (m : rpc_method) (p : rpc_params)
    (o : option rpc_options) (now : Z) :
  _sha256Func (sub t) = None →
  is_Some (_authFrame (sub t)) →
  let r := rpcRequest super m p o now (sub (run t evs)) in
  is_Some (_authFrame (sub (run t evs))) ∧
  promises (snd r) !! fst r = Some (Rejected (Error "No SHA-256 function provided")).
Proof.
  intros Hsha Hf r.
  pose proof (run_keeps_challenge t evs Hf) as Hf'.
  destruct (run_config t evs) as (_ & _ & Hsha'). rewrite Hsha in Hsha'.
  split; [exact Hf' |]. subst r. destruct Hf' as [f Hfr].
  unfold rpcRequest, attach_auth, _regenerateAuthFrames. rewrite Hfr. cbn.
  rewrite Hsha'. cbn. now apply list_lookup_middle.
Qed.

Lemma step_nonce_count t ev (f : auth_frame) :
  _authFrame (sub t) = Some f → no_new_challenge ev →
  _authFrame (sub (step t ev)) =
    Some (mkFrame (nonce f) (realm f) (nc f + (if is_CallRpcRequest ev then 1 else 0))).
Proof.
  destruct t as [busy bp hst s].
  destruct s as [w fd r mr rt ir af tok sha ps sks cn].
  cbn [sub _authFrame]. intros -> Hno. destruct f as [fn fr fc].
  destruct ev; unfold_step; split_step; rewrite ?Z.add_0_r; try reflexivity.
  all: cbn in Hno; match goal with
       | H : _ = ReplyErr ?e |- _ =>
           apply Hno in H; unfold is_challenge in H
       end;
       repeat match goal with
       | H : ?b = true, H' : context [?b] |- _ => rewrite H in H'
       | H : JSON_parse _ = Some _, H' : context [JSON_parse _] |- _ => rewrite H in H'
       end; cbn in *; congruence.
Qed.

(** X15. As long as no call is answered with a new challenge, the frame
    on file keeps its nonce and realm and its count advances by exactly one
    per [rpcRequest] made, whether the call resolves, is rejected or stays
    pending, and whatever else happens in between (reconnects, [end()] and
    [begin()], [authenticate]). *)
Theorem nonce_count_advances_once_per_call t evs (f : auth_frame) :
  _authFrame (sub t) = Some f →
  Forall no_new_challenge evs →
  _authFrame (sub (run t evs)) =
    Some (mkFrame (nonce f) (realm f) (nc f + Z.of_nat (count_rpcRequest evs))).
Proof.
  intros Hf Hall. induction evs as [|ev evs IH] using rev_ind.
  - cbn. rewrite Z.add_0_r. now destruct f.
  - apply Forall_app in Hall as [Hall Hev]. apply Forall_inv in Hev.
    rewrite run_snoc. rewrite (step_nonce_count _ ev _ (IH Hall) Hev). cbn.
    unfold count_rpcRequest. rewrite List.filter_app, length_app. cbn.
    destruct (is_CallRpcRequest ev); cbn; do 2 f_equal; lia.
Qed.

Lemma step_keeps_cnonce t ev (c : Z) :
  cnonce (sub t) = Some c → c ≠ 0 → cnonce (sub (step t ev)) = Some c.
Proof.
  destruct t as [busy bp hst s].
  destruct s as [w fd r mr rt ir af tok sha ps sks cn].
  cbn [sub cnonce]. intros -> Hc.
  assert (Hz : (c =? 0) = false) by lia.
  destruct ev; unfold_step; rewrite ?Hz; split_step; reflexivity.
Qed.

(** X16. The client nonce is chosen once: when the module variable holds a
    non-zero value, it keeps that value along every run, and every auth
    block regenerated afterwards carries it, whatever [Date.now()] returns
    by then. *)
Theorem client_nonce_chosen_once t evs (c : Z) :
  cnonce (sub t) = Some c →
  c ≠ 0 →
  cnonce (sub (run t evs)) = Some c ∧
  ∀ (n now : Z) (b : auth_block),
    fst (_regenerateAuthFrames n now (sub (run t evs))) = inr b → auth_cnonce b = c.
Proof.
  intros Hc Hne.
  assert (Hrun : cnonce (sub (run t evs)) = Some c).
  { induction evs as [|ev evs IH] using rev_ind; [exact Hc |].
    rewrite run_snoc. now apply step_keeps_cnonce. }
  split; [exact Hrun |]. intros n now b.
  unfold _regenerateAuthFrames. rewrite Hrun.
  destruct (_sha256Func _); [| discriminate].
  destruct (_authFrame _); [| discriminate].
  cbn. intros [= <-]. cbn. destruct (Z.eqb_spec c 0); [contradiction | reflexivity].
Qed.

(** X17. After a successful [authenticate(id, password)] the proof sent
    with the next call is
    [sha256(sha256(admin:id:password):nonce:nc:cnonce:auth:sha256(dummy_method:dummy_uri))],
    with the nonce and count of the challenge on file. *)
Theorem proof_built_from_derived_token (id password : string)
    (o : option rpc_options) (now : Z) s (sha256 : sha256_func_t) (f : auth_frame) :
  _sha256Func s = Some sha256 →
  _authFrame s = Some f →
  let s1 := snd (authenticate id password s) in
  let cn := cnonce_or_now (cnonce s) now in
  ∃ b, fst (attach_auth o now s1) = inr (mkOptions (Some b) (default empty_options o)) ∧
       auth_nc b = nc f ∧
       auth_cnonce b = cn ∧
       auth_response b =
         sha256 (sha256 ("admin:" +:+ id +:+ ":" +:+ password) +:+ ":" +:+
                 nonce_toString (nonce f) +:+ ":" +:+ Z_toString (nc f) +:+ ":" +:+
                 Z_toString cn +:+ ":auth:" +:+ sha256 "dummy_method:dummy_uri").
Proof.
  intros Hs Hf s1 cn. subst s1 cn.
  unfold authenticate. rewrite Hs, Hf. cbn.
  unfold attach_auth, _regenerateAuthFrames. cbn. rewrite Hf, Hs. cbn.
  eexists. repeat split.
Qed.

End MoreRpc.

(** * The claims at concrete inputs *)

Section Examples.
#[local] Existing Instance demo_runtime.

Example exhausted_message_1006 :
  exhausted_message 3 1006 = "WebSocket disconnected after 3 retries (code=1006)".
Proof. reflexivity. Qed.

Example demo_socket_url :
  sock_url <$> sockets (sub demo_started) !! 0%nat = Some "ws://192.168.33.1/rpc".
Proof. reflexivity. Qed.

(** The block of the second call of the challenged demo transport. *)
Example demo_auth_block :
  fst (_regenerateAuthFrames 1 1234567 (sub demo_challenged)) =
    inr (@mkBlock demo_runtime 1700000000 "shelly" 1 1234567
           "sha256(:1700000000:1:1234567:auth:sha256(dummy_method:dummy_uri))"
           "admin" "SHA-256").
Proof. reflexivity. Qed.

(** With unlimited retries the sixth close in a row waits 3000. *)
Example demo_sixth_retry_delay :
  _reconnectTimeout
    (onclose 0%nat 1006
       (mkWs (Some 5%nat) false 5 RECONNECT_RETRIES_INFINITE None false None "" None
          [Pending] [] None)) =
    Some (mkTimer 3000 0%nat).
Proof. reflexivity. Qed.

Lemma begin_calls_share_one_attempt_witness :
  _isBusy demo_spied = false ∧
  _beginPromise demo_spied = None ∧
  begin_n (spy _onBegin) 3 demo_spied =
    ([inr 0%nat; inr 0%nat; inr 0%nat],
     mkBase true (Some 0%nat) "ws://192.168.33.1/" (sub demo_started, 1%nat)).
Proof.
  split; [reflexivity |]. split; [reflexivity |].
  apply (begin_calls_share_one_attempt _onBegin demo_spied 0%nat (sub demo_started) 2);
    reflexivity.
Defined.

(** C2, as stated, fails: after a [begin()], the first [end()] returns a
    promise and the second one, with no [begin()] in between, throws. *)
Lemma second_end_in_a_row_throws :
  fst (ws_end demo_started) = inr 1%nat ∧
  fst (ws_end (snd (ws_end demo_started))) = inl (Error "Transport is not active") ∧
  ¬ ∃ h, fst (ws_end (snd (ws_end demo_started))) = inr h.
Proof.
  split; [reflexivity |]. split; [reflexivity |].
  intros [h Hh]. vm_compute in Hh. discriminate.
Qed.

Lemma end_idle_throws_busy_goes_idle_witness :
  _isBusy demo_transport = false ∧
  _isBusy demo_started = true ∧
  ws_end demo_transport = (inl (Error "Transport is not active"), demo_transport) ∧
  _isBusy (snd (ws_end demo_started)) = false ∧
  ws_end (snd (ws_end demo_started)) =
    (inl (Error "Transport is not active"), snd (ws_end demo_started)).
Proof.
  split; [reflexivity |]. split; [reflexivity |].
  destruct (end_idle_throws_busy_goes_idle _onEnd demo_transport demo_started
              eq_refl eq_refl) as (Hidle & Hbusy & _ & _ & Hagain).
  split; [exact Hidle |]. split; [exact Hbusy | exact Hagain].
Defined.

Lemma challenge_stored_call_never_settles_witness :
  owners_existb (sub demo_opened) = true ∧
  (let r := rpcRequest demo_reply_401 "Shelly.GetStatus" "{}" None 1234567 (sub demo_opened) in
   _authFrame (snd r) = Some demo_frame ∧
   promises (snd r) !! fst r = Some Pending ∧
   ∀ busy bp hst evs,
     promise_of (run (mkBase busy bp hst (snd r)) evs) (fst r) = Some Pending).
Proof.
  split; [reflexivity |].
  apply (challenge_stored_call_never_settles demo_reply_401 "Shelly.GetStatus" "{}" None
           1234567 (sub demo_opened) (mkOptions None empty_options) (sub demo_opened)
           demo_401 demo_challenge);
    vm_compute; reflexivity.
Defined.

Lemma nonce_count_used_then_incremented_witness :
  _authFrame (sub demo_challenged) = Some demo_frame ∧
  (let a := attach_auth None 1234567 (sub demo_challenged) in
   let r := rpcRequest demo_reply_ok "Shelly.GetStatus" "{}" None 1234567 (sub demo_challenged) in
   stored_nc (snd a) = Some 2 ∧
   (∃ b, fst a = inr (mkOptions (Some b) empty_options) ∧ auth_nc b = 1) ∧
   ∃ st, promises (snd r) !! fst r = Some st ∧
         (returned st = true → stored_nc (snd r) = Some 2)).
Proof.
  split; [reflexivity |].
  destruct (nonce_count_used_then_incremented demo_reply_ok "Shelly.GetStatus" "{}" None
              1234567 (sub demo_challenged) demo_frame eq_refl)
    as (Hstored & (b & Hb & Hnc & _) & Hret).
  split; [exact Hstored |]. split; [| exact Hret].
  exists b. split; [exact Hb | exact Hnc].
Defined.

(** C5, as stated, fails: with neither a hash function nor a challenge, the
    error is the missing hash function, not the missing challenge. *)
Lemma missing_hash_reported_before_missing_challenge :
  _authFrame (sub demo_transport_nohash) = None ∧
  fst (_regenerateAuthFrames 1 1234567 (sub demo_transport_nohash)) =
    inl (Error "No SHA-256 function provided") ∧
  fst (_regenerateAuthFrames 1 1234567 (sub demo_transport_nohash)) ≠
    inl (Error "No challenge frame available").
Proof.
  split; [reflexivity |]. split; [reflexivity |].
  intros H. vm_compute in H. discriminate.
Qed.

Lemma fourth_close_exhausts_retries_witness :
  _maxRetries (sub demo_started) = 3 ∧
  _retries (sub demo_started) = 0 ∧
  promise_of demo_started 0%nat = Some Pending ∧
  promise_of demo_exhausted 0%nat =
    Some (Rejected (Error "WebSocket disconnected after 3 retries (code=1006)")) ∧
  _retries (sub (step demo_started (SocketOpen 0))) = 0.
Proof.
  split; [reflexivity |]. split; [reflexivity |]. split; [reflexivity |].
  destruct (fourth_close_exhausts_retries demo_started 0%nat
              (mkSocket "ws://192.168.33.1/rpc" 0%nat false) 1006 1006 1006 1006
              demo_started 0%nat (mkSocket "ws://192.168.33.1/rpc" 0%nat false)
              eq_refl eq_refl eq_refl eq_refl eq_refl eq_refl eq_refl)
    as (_ & _ & Hrej & Hopen).
  split; [exact Hrej | exact Hopen].
Defined.

Lemma reconnect_delay_formula_witness :
  _forceDisconnect (sub demo_started) = false ∧
  _isReconnecting (sub demo_started) = false ∧
  _retries (sub demo_started) < _maxRetries (sub demo_started) ∧
  _reconnectTimeout (onclose 0%nat 1006 (sub demo_started)) = Some (mkTimer 2500 0%nat).
Proof.
  split; [reflexivity |]. split; [reflexivity |]. split; [reflexivity |].
  destruct (reconnect_delay_formula 0%nat 1006 (sub demo_started) eq_refl eq_refl
              (or_introl eq_refl)) as (_ & _ & H15 & _).
  apply H15. cbn. lia.
Defined.

(** C8, as stated, fails: with a hash function configured but no challenge
    on file, [authenticate] rejects. *)
Lemma authenticate_fails_without_challenge :
  is_Some (_sha256Func (sub demo_opened)) ∧
  (let r := authenticate "shellyplus1-a8032abe54dc" "secret" (sub demo_opened) in
   promises (snd r) !! fst r = Some (Rejected (Error "No challenge frame available"))).
Proof. split; [eexists; reflexivity | reflexivity]. Qed.

Example demo_user_token :
  _userShaToken (snd (authenticate "shellyplus1-a8032abe54dc" "secret" (sub demo_challenged))) =
    "sha256(admin:shellyplus1-a8032abe54dc:secret)".
Proof. reflexivity. Qed.

Lemma maxRetries_zero_becomes_default_witness :
  (7 ≠ 0) ∧
  _maxRetries (sub (new_DeviceWsInTransport "client" "ws://192.168.33.1"
                      (Some demo_sha256) (Some (mkWsOptions (Some 0))) [] None)) = 5 ∧
  _maxRetries (sub (new_DeviceWsInTransport "client" "ws://192.168.33.1"
                      (Some demo_sha256) (Some (mkWsOptions (Some (-1)))) [] None)) = -1.
Proof.
  split; [lia |].
  destruct (maxRetries_zero_becomes_default "client" "ws://192.168.33.1"
              (Some demo_sha256) [] None 7 ltac:(lia)) as (H0 & _ & _ & Hinf & _).
  split; [exact H0 | exact Hinf].
Defined.

Lemma rejected_start_handle_kept_until_end_witness :
  _isBusy demo_exhausted = true ∧
  _beginPromise demo_exhausted = Some 0%nat ∧
  promise_of demo_exhausted 0%nat =
    Some (Rejected (Error "WebSocket disconnected after 3 retries (code=1006)")) ∧
  ws_begin demo_exhausted = (inr 0%nat, demo_exhausted) ∧
  (let t' := run demo_exhausted [CallBegin; SocketOpen 3; CallBegin] in
   ws_begin t' = (inr 0%nat, t')) ∧
  fst (ws_begin (snd (ws_end demo_exhausted))) = inr 2%nat.
Proof.
  split; [reflexivity |]. split; [reflexivity |]. split; [reflexivity |].
  destruct (rejected_start_handle_kept_until_end demo_exhausted 0%nat
              (Error "WebSocket disconnected after 3 retries (code=1006)")
              [CallBegin; SocketOpen 3; CallBegin]
              eq_refl eq_refl eq_refl eq_refl)
    as (Hsame & (Hlater & _) & (_ & Hfresh & _)).
  split; [exact Hsame |]. split; [exact Hlater | exact Hfresh].
Defined.

Lemma begin_hook_throws_leaves_busy_witness :
  _isBusy demo_transport = false ∧
  _beginPromise demo_transport = None ∧
  fst (begin demo_failing_hook demo_transport) = inl (Error "connect failed") ∧
  begin_n _onBegin 2 (snd (begin demo_failing_hook demo_transport)) =
    ([inl (Error "Transport already busy"); inl (Error "Transport already busy")],
     snd (begin demo_failing_hook demo_transport)).
Proof.
  split; [reflexivity |]. split; [reflexivity |].
  destruct (begin_hook_throws_leaves_busy demo_failing_hook _onBegin _onEnd demo_transport
              (Error "connect failed") (sub demo_transport) 2 eq_refl eq_refl eq_refl)
    as (Hfirst & Hnext & _).
  split; [now rewrite Hfirst |]. rewrite Hfirst. exact Hnext.
Defined.

Lemma end_stops_reconnecting_witness :
  _isBusy demo_started_state = true ∧
  (let t2 := run (snd (ws_end demo_started_state))
               [SocketClose 0 1006; TimerFired; SocketOpen 0; CallEnd] in
   sockets (sub t2) = sockets (sub (snd (ws_end demo_started_state))) ∧
   _reconnectTimeout (sub t2) = None).
Proof.
  split; [reflexivity |].
  destruct (end_stops_reconnecting demo_started_state
              [SocketClose 0 1006; TimerFired; SocketOpen 0; CallEnd] eq_refl eq_refl)
    as (_ & Hsk & Htm & _).
  split; [exact Hsk | exact Htm].
Defined.

Lemma close_while_reconnecting_ignored_witness :
  _forceDisconnect (sub demo_started_state) = false ∧
  _isReconnecting (sub demo_started_state) = false ∧
  _retries (sub demo_started_state) < _maxRetries (sub demo_started_state) ∧
  (let t1 := step demo_started_state (SocketClose 0 1006) in
   _retries (sub t1) = 1 ∧ step t1 (SocketClose 0 1001) = t1).
Proof.
  split; [reflexivity |]. split; [reflexivity |]. split; [reflexivity |].
  apply (close_while_reconnecting_ignored demo_started_state 0%nat
           (mkSocket "ws://192.168.33.1/rpc" 0%nat false) 0%nat
           (mkSocket "ws://192.168.33.1/rpc" 0%nat false) 1006 1001
           eq_refl eq_refl eq_refl eq_refl (or_introl eq_refl)).
Defined.

Lemma exhaustion_after_settled_is_silent_witness :
  promise_of demo_lost 0%nat = Some (Resolved Undefined) ∧
  _retries (sub demo_lost) = 3 ∧
  _maxRetries (sub demo_lost) = 3 ∧
  step demo_lost (SocketClose 3 1006) = demo_lost.
Proof.
  split; [reflexivity |]. split; [reflexivity |]. split; [reflexivity |].
  apply (exhaustion_after_settled_is_silent demo_lost 3%nat
           (mkSocket "ws://192.168.33.1/rpc" 0%nat false) 1006 (Resolved Undefined));
    first [reflexivity | vm_compute; congruence].
Defined.

Lemma open_resolves_and_cancels_timer_witness :
  promise_of demo_started_state 0%nat = Some Pending ∧
  promise_of (step demo_started_state (SocketOpen 0)) 0%nat = Some (Resolved Undefined) ∧
  step (step demo_started_state (SocketOpen 0)) TimerFired = step demo_started_state (SocketOpen 0).
Proof.
  split; [reflexivity |].
  destruct (open_resolves_and_cancels_timer demo_started_state 0%nat
              (mkSocket "ws://192.168.33.1/rpc" 0%nat false) eq_refl eq_refl)
    as (Hres & _ & _ & _ & Htm).
  split; [exact Hres | exact Htm].
Defined.

Lemma unlimited_retries_never_reject_witness :
  _maxRetries (sub demo_unlimited) = -1 ∧
  promise_of demo_unlimited 0%nat = Some Pending ∧
  ∃ st', promise_of
           (run demo_unlimited
              [SocketClose 0 1006; TimerFired; SocketClose 1 1006; TimerFired;
               SocketClose 2 1006; TimerFired; SocketClose 3 1006; TimerFired;
               SocketClose 4 1006; TimerFired; SocketClose 5 1006; TimerFired;
               SocketClose 6 1006]) 0%nat = Some st' ∧
         is_Rejected st' = false.
Proof.
  split; [reflexivity |]. split; [reflexivity |].
  apply (unlimited_retries_never_reject demo_unlimited 0%nat Pending); reflexivity.
Defined.

Lemma rpc_outcome_passes_through_witness :
  attach_auth None 1234567 (sub demo_opened_state) =
    (inr (mkOptions None empty_options), sub demo_opened_state) ∧
  (let r := rpcRequest demo_reply_ok "Shelly.GetStatus" "{}" None 1234567 (sub demo_opened_state) in
   promises (snd r) !! fst r = Some (Resolved (RpcResult "{}"))).
Proof.
  split; [reflexivity |].
  exact (proj1 (rpc_outcome_passes_through demo_reply_ok "Shelly.GetStatus" "{}" None
                  1234567 (sub demo_opened_state) (mkOptions None empty_options)
                  (sub demo_opened_state) eq_refl)).
Defined.

Lemma malformed_challenge_keeps_frame_witness :
  is_challenge demo_401_garbage = false ∧
  (let r := rpcRequest demo_reply_garbage "Shelly.GetStatus" "{}" None 1234567
              (sub demo_opened_state) in
   _authFrame (snd r) = None ∧
   promises (snd r) !! fst r = Some (Rejected SyntaxError)).
Proof.
  split; [reflexivity |].
  apply (malformed_challenge_keeps_frame demo_reply_garbage "Shelly.GetStatus" "{}" None
           1234567 (sub demo_opened_state) (mkOptions None empty_options) (sub demo_opened_state)
           demo_401_garbage);
    reflexivity.
Defined.

Lemma challenged_without_hash_rejects_every_call_witness :
  _sha256Func (sub demo_nohash_challenged) = None ∧
  _authFrame (sub demo_nohash_challenged) = Some demo_frame ∧
  (let r := rpcRequest demo_reply_ok "Shelly.GetStatus" "{}" None 1234999
              (sub (run demo_nohash_challenged [CallEnd; CallBegin; SocketOpen 1])) in
   promises (snd r) !! fst r = Some (Rejected (Error "No SHA-256 function provided"))).
Proof.
  split; [reflexivity |]. split; [reflexivity |].
  exact (proj2 (challenged_without_hash_rejects_every_call demo_nohash_challenged
                  [CallEnd; CallBegin; SocketOpen 1] demo_reply_ok "Shelly.GetStatus" "{}"
                  None 1234999 eq_refl (ex_intro _ demo_frame eq_refl))).
Defined.

Lemma nonce_count_advances_once_per_call_witness :
  _authFrame (sub demo_challenged_state) = Some demo_frame ∧
  _authFrame
    (sub (run demo_challenged_state
            [demo_call_ok 1234567; CallEnd; CallBegin; SocketOpen 1; demo_call_ok 1234999])) =
    Some (@mkFrame demo_runtime 1700000000 "shelly" 3).
Proof.
  split; [reflexivity |].
  apply (nonce_count_advances_once_per_call demo_challenged_state
           [demo_call_ok 1234567; CallEnd; CallBegin; SocketOpen 1; demo_call_ok 1234999]
           demo_frame eq_refl).
  repeat constructor; cbn; intros; discriminate.
Defined.

Lemma client_nonce_chosen_once_witness :
  cnonce (sub demo_called) = Some 1234567 ∧
  cnonce (sub (run demo_called [CallEnd; CallBegin; demo_call_ok 1299999])) = Some 1234567.
Proof.
  split; [reflexivity |].
  exact (proj1 (client_nonce_chosen_once demo_called [CallEnd; CallBegin; demo_call_ok 1299999]
                  1234567 eq_refl ltac:(lia))).
Defined.

Lemma proof_built_from_derived_token_witness :
  _sha256Func (sub demo_challenged_state) = Some demo_sha256 ∧
  _authFrame (sub demo_challenged_state) = Some demo_frame ∧
  ∃ b, fst (attach_auth None 1234567
              (snd (authenticate "shellyplus1-a8032abe54dc" "secret" (sub demo_challenged_state)))) =
         inr (mkOptions (Some b) empty_options) ∧
       auth_response b =
         "sha256(sha256(admin:shellyplus1-a8032abe54dc:secret):1700000000:1:1234567:auth:sha256(dummy_method:dummy_uri))".
Proof.
  split; [reflexivity |]. split; [reflexivity |].
  destruct (proof_built_from_derived_token "shellyplus1-a8032abe54dc" "secret" None 1234567
              (sub demo_challenged_state) demo_sha256 demo_frame eq_refl eq_refl)
    as (b & Hb & _ & _ & Hresp).
  exists b. split; [exact Hb | exact Hresp].
Defined.

Lemma proof_separates_nonce_counts_witness :
  (∀ x y : string, (fun d : string => d) x = (fun d : string => d) y → x = y) ∧
  snd (fst (prepareAuthPartialFrame (fun d => d) "token" (1700000000 : nonce_t) 5 1234567 None)) =
    "token:1700000000:5:1234567:auth:dummy_method:dummy_uri" ∧
  5 = 5.
Proof.
  split; [intros x y H; exact H |]. split; [reflexivity |].
  exact (proof_separates_nonce_counts (fun d => d) "token" (1700000000 : nonce_t) 5 5 1234567
           None (fun x y H => H) eq_refl).
Defined.

Lemma retry_that_connects_resolves_start_witness :
  promise_of demo_started_state 0%nat = Some Pending ∧
  _retries (sub demo_started_state) < _maxRetries (sub demo_started_state) ∧
  (let t2 := run demo_started_state [SocketClose 0 1006; TimerFired; SocketOpen 1] in
   promise_of t2 0%nat = Some (Resolved Undefined) ∧ _ws (sub t2) = Some 1%nat).
Proof.
  split; [reflexivity |]. split; [reflexivity |].
  destruct (retry_that_connects_resolves_start demo_started_state 0%nat
              (mkSocket "ws://192.168.33.1/rpc" 0%nat false) 1006
              eq_refl eq_refl eq_refl eq_refl (or_introl eq_refl))
    as (Hres & _ & Hws & _).
  split; [exact Hres | exact Hws].
Defined.

End Examples.
